(** * CwaWeather-backend: the weather handler of [server.js]

    A shallow embedding of [getCityWeather] (server.js, lines 32-158), the
    one route handler of the service that carries logic: it validates the
    city code against [CITIES], checks the API key, calls the CWA open-data
    API through axios, and flattens the per-element time series of the
    answer into a list of forecast periods.

    The handler works on untyped JavaScript values, so the embedding does
    too: the upstream body is a parsed JSON value, property reads follow
    JavaScript's rules (reading a property of [undefined] or [null] throws
    a TypeError, reading a missing property yields [undefined]), and the
    [try]/[catch] of the handler is an error monad. *)

From Stdlib Require Import String Ascii List ZArith Bool Arith Lia.
From Stdlib Require Import DecimalString Permutation.
Import ListNotations.
Local Open Scope string_scope.
Local Open Scope Z_scope.

(** ** JavaScript values *)

Module JS.

(** What [JSON.parse] can produce, plus [undefined] (the result of reading
    a missing property).  Numbers are integers, of a size that JavaScript
    prints in plain decimal digits: the handler only tests numbers for
    truthiness, compares them with a loop index and prints them, and the
    dataset carries every quantity as a string; fractions and infinities
    are outside the model.  Strings hold the UTF-8 bytes of
    the text.  An object is its list of own properties; the keys of a
    parsed object are distinct, and a read takes the first binding. *)
#[warnings="-register-all"] Inductive Value : Type :=
| VUndef
| VNull
| VBool (b : bool)
| VNum (z : Z)
| VStr (s : string)
| VArr (items : list Value)
| VObj (props : list (string * Value)).

(** [!!v] *)
Definition truthy (v : Value) : bool :=
  match v with
  | VUndef | VNull => false
  | VBool b => b
  | VNum z => negb (z =? 0)
  | VStr s => negb (s =? "")%string
  | VArr _ | VObj _ => true
  end.

(** [v == null]: the two values whose properties cannot be read. *)
Definition nullish (v : Value) : bool :=
  match v with
  | VUndef | VNull => true
  | _ => false
  end.

(** [a || b] *)
Definition or_else (a b : Value) : Value := if truthy a then a else b.

(** [v === 0] *)
Definition is_zero (v : Value) : bool :=
  match v with
  | VNum 0 => true
  | _ => false
  end.

Fixpoint assoc (k : string) (ps : list (string * Value)) : Value :=
  match ps with
  | [] => VUndef
  | (k', v) :: ps' => if (k =? k')%string then v else assoc k ps'
  end.

(** The UTF-16 code units of a string, each given by the UTF-8 bytes of its
    character.  [length] and indexing of a JavaScript string count code
    units: a character of one to three bytes is one unit, a character of
    four bytes (outside the basic plane) is a surrogate pair, listed as two
    units that both show the whole character (the handler never looks
    inside an indexed character). *)
Definition is_continuation (c : ascii) : bool :=
  let n := nat_of_ascii c in ((128 <=? n) && (n <? 192))%nat.

Definition flush (cur : string) (acc : list string) : list string :=
  match cur with
  | EmptyString => acc
  | String c _ => if (240 <=? nat_of_ascii c)%nat then cur :: cur :: acc else cur :: acc
  end.

Fixpoint code_units_from (s cur : string) (acc : list string) : list string :=
  match s with
  | EmptyString => rev (flush cur acc)
  | String c rest =>
      if is_continuation c
      then code_units_from rest (cur ++ String c EmptyString) acc
      else code_units_from rest (String c EmptyString) (flush cur acc)
  end.

Definition code_units (s : string) : list string := code_units_from s "" [].

Definition string_of_nat (n : nat) : string := NilZero.string_of_uint (Nat.to_uint n).
Definition string_of_Z (z : Z) : string := NilZero.string_of_int (Z.to_int z).

(** [v.k] for a value that is neither [undefined] nor [null].  The names
    the handler reads from the payload ([records], [location],
    [weatherElement], [time], [parameter], [parameterName], [elementName],
    [startTime], [endTime], [datasetDescription], [message], [length]) are
    not properties of any built-in prototype, so only own properties
    count: [length] of arrays and strings, the listed properties of an
    object.  On [undefined] and [null] this pure reading gives [undefined],
    which is what optional chaining [v?.k] does; the throwing read is
    [get] below. *)
Definition prop (v : Value) (k : string) : Value :=
  match v with
  | VObj ps => assoc k ps
  | VArr items => if (k =? "length")%string then VNum (Z.of_nat (length items)) else VUndef
  | VStr s => if (k =? "length")%string then VNum (Z.of_nat (length (code_units s))) else VUndef
  | _ => VUndef
  end.

(** [v[i]] for a loop index or literal index [i], same convention. *)
Definition item (v : Value) (i : nat) : Value :=
  match v with
  | VArr items => nth i items VUndef
  | VStr s => match nth_error (code_units s) i with
              | Some c => VStr c
              | None => VUndef
              end
  | VObj ps => assoc (string_of_nat i) ps
  | _ => VUndef
  end.

(** String conversion as done by [+] with a string operand and by template
    literals.  [None] is the TypeError "Cannot convert object to primitive
    value": a parsed object is printed by the inherited [toString] as
    [[object Object]], unless it has an own property [toString], which is
    never callable and hides the inherited one ([valueOf], own or
    inherited, never yields a primitive).  An array is the comma-separated
    join of its items, with [null] and [undefined] printed empty. *)
Fixpoint to_string (v : Value) : option string :=
  match v with
  | VUndef => Some "undefined"
  | VNull => Some "null"
  | VBool b => Some (if b then "true" else "false")
  | VNum z => Some (string_of_Z z)
  | VStr s => Some s
  | VArr items =>
      (fix join (l : list Value) : option string :=
         match l with
         | [] => Some ""
         | x :: l' =>
             match (if nullish x then Some "" else to_string x) with
             | None => None
             | Some sx =>
                 match l' with
                 | [] => Some sx
                 | _ => match join l' with
                        | None => None
                        | Some sl => Some (sx ++ "," ++ sl)
                        end
                 end
             end
         end) items
  | VObj ps =>
      if existsb (fun p => (fst p =? "toString")%string) ps
      then None
      else Some "[object Object]"
  end.

End JS.

Import JS.

(** ** Exceptions inside the [try] block

    [TypeError] is the only exception the payload processing can raise; the
    [catch] block of the handler receives it.  [NotEmbedded] marks the one
    conversion this development does not embed (see [iterations]); it is
    not a JavaScript exception and no handler catches it. *)
Inductive Try (A : Type) : Type :=
| Ok (a : A)
| TypeError
| NotEmbedded.

Arguments Ok {A} a.
Arguments TypeError {A}.
Arguments NotEmbedded {A}.

Definition bind {A B : Type} (c : Try A) (k : A -> Try B) : Try B :=
  match c with
  | Ok a => k a
  | TypeError => TypeError
  | NotEmbedded => NotEmbedded
  end.

Notation "x <- c ;; k" := (bind c (fun x => k))
  (at level 61, c at next level, right associativity).

(** [v.k]: throws when [v] is [undefined] or [null]. *)
Definition get (v : Value) (k : string) : Try Value :=
  if nullish v then TypeError else Ok (prop v k).

(** [v[i]]: throws when [v] is [undefined] or [null]. *)
Definition get_item (v : Value) (i : nat) : Try Value :=
  if nullish v then TypeError else Ok (item v i).

(** [a + suffix] with a string literal on the right. *)
Definition concat (a : Value) (suffix : string) : Try Value :=
  match to_string a with
  | Some s => Ok (VStr (s ++ suffix))
  | None => TypeError
  end.

(** ** The city registry (server.js, lines 14-21) *)

Module City.
Record t : Type := make { id : string; name : string; displayName : string }.
End City.

Definition CITIES : list (string * City.t) :=
  [ ("taipei", City.make "taipei" "臺北市" "台北市");
    ("newtaipei", City.make "newtaipei" "新北市" "新北市");
    ("taoyuan", City.make "taoyuan" "桃園市" "桃園市");
    ("taichung", City.make "taichung" "臺中市" "台中市");
    ("tainan", City.make "tainan" "臺南市" "台南市");
    ("kaohsiung", City.make "kaohsiung" "高雄市" "高雄市") ].

(** [CITIES] is an object literal, so [CITIES[city]] also finds what
    [Object.prototype] provides.  Each inherited member is listed with the
    value of its [name] property: the built-in functions carry their name,
    the [__proto__] accessor returns [Object.prototype] itself, which has
    none.  No member has a [displayName]. *)
Definition Object_prototype : list (string * Value) :=
  [ ("constructor", VStr "Object");
    ("__defineGetter__", VStr "__defineGetter__");
    ("__defineSetter__", VStr "__defineSetter__");
    ("hasOwnProperty", VStr "hasOwnProperty");
    ("__lookupGetter__", VStr "__lookupGetter__");
    ("__lookupSetter__", VStr "__lookupSetter__");
    ("isPrototypeOf", VStr "isPrototypeOf");
    ("propertyIsEnumerable", VStr "propertyIsEnumerable");
    ("toString", VStr "toString");
    ("valueOf", VStr "valueOf");
    ("__proto__", VUndef);
    ("toLocaleString", VStr "toLocaleString") ].

Fixpoint find_key {A : Type} (k : string) (l : list (string * A)) : option A :=
  match l with
  | [] => None
  | (k', a) :: l' => if (k =? k')%string then Some a else find_key k l'
  end.

(** The value of [CITIES[city]]. *)
Inductive Entry : Type :=
| Own (c : City.t)
| Inherited (member_name : Value)
| Missing.

Definition CITIES_at (city : string) : Entry :=
  match find_key city CITIES with
  | Some c => Own c
  | None =>
      match find_key city Object_prototype with
      | Some n => Inherited n
      | None => Missing
      end
  end.

(** [CITIES[city].name] and [CITIES[city].displayName], read only after the
    entry has passed the truthiness test; objects and functions are truthy,
    a missing property is [undefined]. *)
Definition entry_truthy (e : Entry) : bool :=
  match e with
  | Missing => false
  | _ => true
  end.

Definition entry_name (e : Entry) : Value :=
  match e with
  | Own c => VStr (City.name c)
  | Inherited n => n
  | Missing => VUndef
  end.

Definition entry_displayName (e : Entry) : Value :=
  match e with
  | Own c => VStr (City.displayName c)
  | _ => VUndef
  end.

(** [Object.keys(CITIES)] and [Object.values(CITIES)]: own properties only,
    in insertion order. *)
Definition CITIES_keys : list string := map fst CITIES.
Definition CITIES_values : list City.t := map snd CITIES.

Fixpoint join (sep : string) (l : list string) : string :=
  match l with
  | [] => ""
  | [x] => x
  | x :: l' => x ++ sep ++ join sep l'
  end.

(** ** Forecast periods (server.js, lines 93-136) *)

Record Forecast : Type := mkForecast {
  startTime : Value;
  endTime : Value;
  weather : Value;
  rain : Value;
  minTemp : Value;
  maxTemp : Value;
  comfort : Value;
  windSpeed : Value
}.

(** The object literal of lines 98-107. *)
Definition seeded (start_time end_time : Value) : Forecast :=
  {| startTime := start_time;
     endTime := end_time;
     weather := VStr "不明";
     rain := VStr "0%";
     minTemp := VStr "N/A";
     maxTemp := VStr "N/A";
     comfort := VStr "不明";
     windSpeed := VStr "0" |}.

Definition set_weather (v : Value) (f : Forecast) : Forecast :=
  mkForecast (startTime f) (endTime f) v (rain f) (minTemp f) (maxTemp f) (comfort f) (windSpeed f).
Definition set_rain (v : Value) (f : Forecast) : Forecast :=
  mkForecast (startTime f) (endTime f) (weather f) v (minTemp f) (maxTemp f) (comfort f) (windSpeed f).
Definition set_minTemp (v : Value) (f : Forecast) : Forecast :=
  mkForecast (startTime f) (endTime f) (weather f) (rain f) v (maxTemp f) (comfort f) (windSpeed f).
Definition set_maxTemp (v : Value) (f : Forecast) : Forecast :=
  mkForecast (startTime f) (endTime f) (weather f) (rain f) (minTemp f) v (comfort f) (windSpeed f).
Definition set_comfort (v : Value) (f : Forecast) : Forecast :=
  mkForecast (startTime f) (endTime f) (weather f) (rain f) (minTemp f) (maxTemp f) v (windSpeed f).
Definition set_windSpeed (v : Value) (f : Forecast) : Forecast :=
  mkForecast (startTime f) (endTime f) (weather f) (rain f) (minTemp f) (maxTemp f) (comfort f) v.

(** The [switch] of lines 112-131; [value] is the truthy parameter.  The
    cases are string literals compared with [===], so an [elementName]
    that is not a string matches none. *)
Definition assign (elementName value : Value) (forecast : Forecast) : Try Forecast :=
  let parameterName := prop value "parameterName" in
  match elementName with
  | VStr n =>
      if (n =? "Wx")%string then
        Ok (set_weather (or_else parameterName (VStr "不明")) forecast)
      else if (n =? "PoP")%string then
        v <- concat (or_else parameterName (VStr "0")) "%" ;;
        Ok (set_rain v forecast)
      else if (n =? "MinT")%string then
        v <- concat (or_else parameterName (VStr "N/A")) "°C" ;;
        Ok (set_minTemp v forecast)
      else if (n =? "MaxT")%string then
        v <- concat (or_else parameterName (VStr "N/A")) "°C" ;;
        Ok (set_maxTemp v forecast)
      else if (n =? "CI")%string then
        Ok (set_comfort (or_else parameterName (VStr "不明")) forecast)
      else if (n =? "WS")%string then
        Ok (set_windSpeed (or_else parameterName (VStr "0")) forecast)
      else Ok forecast
  | _ => Ok forecast
  end.

(** The callback of [weatherElements.forEach] (lines 109-133) at time
    index [i]: [forecast] is the object being filled. *)
Definition visit (i : nat) (forecast : Forecast) (element : Value) : Try Forecast :=
  time <- get element "time" ;;
  slot <- get_item time i ;;
  value <- get slot "parameter" ;;
  if truthy value
  then assign (prop element "elementName") value forecast
  else Ok forecast.

Fixpoint forEach (i : nat) (elements : list Value) (forecast : Forecast) : Try Forecast :=
  match elements with
  | [] => Ok forecast
  | element :: rest =>
      forecast' <- visit i forecast element ;;
      forEach i rest forecast'
  end.

(** One turn of the [for] loop (lines 98-133).  [forEach] exists on arrays
    only; calling it on anything else is a TypeError. *)
Definition period (weatherElements : Value) (i : nat) : Try Forecast :=
  element0 <- get_item weatherElements 0 ;;
  time0 <- get element0 "time" ;;
  slot0 <- get_item time0 i ;;
  start_time <- get slot0 "startTime" ;;
  end_time <- get slot0 "endTime" ;;
  match weatherElements with
  | VArr elements => forEach i elements (seeded start_time end_time)
  | _ => TypeError
  end.

(** [for (let i = 0; i < timeCount; i++) { ...; forecasts.push(forecast) }]
    with [n] turns left. *)
Fixpoint loop (weatherElements : Value) (n i : nat) (forecasts : list Forecast)
  : Try (list Forecast) :=
  match n with
  | O => Ok forecasts
  | S n' =>
      forecast <- period weatherElements i ;;
      loop weatherElements n' (S i) (forecasts ++ [forecast])
  end.

(** How many indices [i = 0, 1, ...] pass the test [i < timeCount].  A
    number is compared as it is, [undefined] converts to NaN and fails
    every test, [null] and booleans convert to 0 and 1.  A string, array
    or object would be converted by parsing its text as a number; that
    parser is not embedded. *)
Definition iterations (timeCount : Value) : Try nat :=
  match timeCount with
  | VNum z => Ok (Z.to_nat z)
  | VUndef | VNull => Ok O
  | VBool b => Ok (if b then 1%nat else O)
  | VStr _ | VArr _ | VObj _ => NotEmbedded
  end.

(** Lines 94-136: from [locationData.weatherElement] to the list of
    forecast periods. *)
Definition forecasts_of (weatherElements : Value) : Try (list Forecast) :=
  element0 <- get_item weatherElements 0 ;;
  time0 <- get element0 "time" ;;
  timeCount <- get time0 "length" ;;
  n <- iterations timeCount ;;
  loop weatherElements n 0 [].

(** ** Responses *)

Module ValidCity.
Record t : Type := make { id : string; name : string }.
End ValidCity.

Record WeatherData : Type := mkWeatherData {
  city : Value;
  cityId : string;
  updateTime : Value;
  forecastTime : Value;
  forecasts : list Forecast
}.

(** The objects passed to [res.json]. *)
Inductive Body : Type :=
| InvalidCity (error message : string) (validCities : list ValidCity.t)
| Failure (error message : string)
| UpstreamFailure (error : string) (message details : Value)
| Success (data : WeatherData).

(** What a call of the handler ends in: [res.status(s).json(b)] (status 200
    when [res.json] is called alone), or an exception that leaves the
    [catch] block, so that the handler itself sends nothing. *)
Inductive Outcome : Type :=
| Responded (status : Z) (body : Body)
| Escaped
| Outside_model.

(** ** The HTTP client (axios)

    [axios.get(url, {params})] resolves with the parsed body when the
    status is 2xx, rejects with an error that carries [response] (status
    and parsed body) otherwise, and rejects without [response] when the
    request fails below HTTP. *)
Record Request : Type := mkRequest {
  url : string;
  Authorization : string;
  locationName : Value
}.

Inductive Reply : Type :=
| Resolved (data : Value)
| Rejected (status : Z) (data : Value)
| Network_failure.

Definition CWA_API_BASE_URL : string := "https://opendata.cwa.gov.tw/api".

(** ** The handler (server.js, lines 32-158) *)

Definition invalid_city : Outcome :=
  Responded 400
    (InvalidCity "無效的城市代碼"
       ("城市代碼必須是: " ++ join ", " CITIES_keys)
       (map (fun c => ValidCity.make (City.id c) (City.displayName c)) CITIES_values)).

Definition missing_key : Outcome :=
  Responded 500 (Failure "伺服器設定錯誤" "請在 .env 檔案中設定 CWA_API_KEY").

(** The template literal prints [undefined] as the text "undefined". *)
Definition display_text (e : Entry) : string :=
  match e with
  | Own c => City.displayName c
  | _ => "undefined"
  end.

Definition no_data (e : Entry) : Outcome :=
  Responded 404 (Failure "查無資料" ("無法取得 " ++ display_text e ++ " 的天氣資料")).

Definition server_error : Outcome :=
  Responded 500 (Failure "伺服器錯誤" "無法取得天氣資料，請稍後再試").

(** Lines 69-141, after [axios.get] has resolved with [data]. *)
Definition on_resolved (e : Entry) (city : string) (data : Value) : Try Outcome :=
  records <- get data "records" ;;
  if negb (truthy records) then Ok (no_data e) else
  let location := prop records "location" in
  if negb (truthy location) then Ok (no_data e) else
  if is_zero (prop location "length") then Ok (no_data e) else
  let locationData := item location 0 in
  weatherElement <- get locationData "weatherElement" ;;
  element0 <- get_item weatherElement 0 ;;
  let forecast_time :=
    or_else (prop (item (prop element0 "time") 0) "startTime") VNull in
  periods <- forecasts_of weatherElement ;;
  Ok (Responded 200
        (Success
           {| city := entry_displayName e;
              cityId := city;
              updateTime := prop records "datasetDescription";
              forecastTime := forecast_time;
              forecasts := periods |})).

(** Lines 142-157: the [catch] block, for a rejection that carries
    [response].  [error.response.data.message] is read while the argument
    of [json] is built, and throws when the body is [null]. *)
Definition on_rejected (status : Z) (data : Value) : Outcome :=
  match get data "message" with
  | Ok message =>
      Responded status
        (UpstreamFailure "CWA API 錯誤" (or_else message (VStr "無法取得天氣資料")) data)
  | _ => Escaped
  end.

(** [!CWA_API_KEY]: the variable is unset or empty. *)
Definition key_absent (CWA_API_KEY : option string) : bool :=
  match CWA_API_KEY with
  | None => true
  | Some k => (k =? "")%string
  end.

Definition key_text (CWA_API_KEY : option string) : string :=
  match CWA_API_KEY with
  | Some k => k
  | None => ""
  end.

(** A run of the handler: the outbound requests it made, in order, and how
    it ended.  ([console.error] in the [catch] block only logs.) *)
Record Run : Type := mkRun {
  calls : list Request;
  outcome : Outcome
}.

(** The request of lines 59-67. *)
Definition request_for (CWA_API_KEY : option string) (entry : Entry) : Request :=
  let cityName := entry_name entry in
  {| url := CWA_API_BASE_URL ++ "/v1/rest/datastore/F-C0032-001";
     Authorization := key_text CWA_API_KEY;
     locationName := cityName |}.

Definition getCityWeather (CWA_API_KEY : option string) (axios_get : Request -> Reply)
    (city : string) : Run :=
  let entry := CITIES_at city in
  if negb (entry_truthy entry) then mkRun [] invalid_city
  else if key_absent CWA_API_KEY then mkRun [] missing_key
  else
    let request := request_for CWA_API_KEY entry in
    mkRun [request]
      match axios_get request with
      | Resolved data =>
          match on_resolved entry city data with
          | Ok result => result
          | TypeError => server_error
          | NotEmbedded => Outside_model
          end
      | Rejected status data => on_rejected status data
      | Network_failure => server_error
      end.

(** The forecast list a run delivered, if it delivered one. *)
Definition delivered (r : Run) : option (list Forecast) :=
  match outcome r with
  | Responded _ (Success d) => Some (forecasts d)
  | _ => None
  end.

Definition status_of (r : Run) : option Z :=
  match outcome r with
  | Responded s _ => Some s
  | _ => None
  end.

(** ** Sample payloads, in the shape of dataset F-C0032-001 *)

Module Sample.

Definition slot (start_time end_time : string) (parameter : Value) : Value :=
  VObj [("startTime", VStr start_time); ("endTime", VStr end_time); ("parameter", parameter)].

Definition named (parameterName : string) : Value :=
  VObj [("parameterName", VStr parameterName); ("parameterUnit", VStr "")].

Definition element (elementName : string) (time : list Value) : Value :=
  VObj [("elementName", VStr elementName); ("time", VArr time)].

Definition body (location : Value) : Value :=
  VObj [("success", VStr "true");
        ("records", VObj [("datasetDescription", VStr "三十六小時天氣預報");
                          ("location", location)])].

Definition located (weatherElement : list Value) : Value :=
  VObj [("locationName", VStr "臺北市"); ("weatherElement", VArr weatherElement)].

Definition key : option string := Some "CWA-TEST-KEY".

Definition answering (r : Reply) : Request -> Reply := fun _ => r.

(** [records.location] is an object where an array is expected. *)
Definition object_location : Value := body (VObj []).

(** The first location has no [weatherElement]. *)
Definition bare_location : Value := body (VArr [VObj [("locationName", VStr "臺北市")]]).

(** Two periods; [PoP] has a slot for the first only. *)
Definition ragged : Value :=
  body (VArr [located
    [ element "Wx" [slot "06:00" "18:00" (named "多雲"); slot "18:00" "06:00" (named "晴")];
      element "PoP" [slot "06:00" "18:00" (named "20")] ]]).

(** One period; the slot of [MinT] has no [parameter], the slot of [MaxT]
    has a parameter with an empty [parameterName]. *)
Definition cloudy : Value := element "Wx" [slot "06:00" "18:00" (named "多雲")].

Definition untold_MinT : Value :=
  element "MinT" [VObj [("startTime", VStr "06:00"); ("endTime", VStr "18:00")]].

Definition unnamed_MaxT : Value := element "MaxT" [slot "06:00" "18:00" (named "")].

Definition untold : Value := body (VArr [located [cloudy; untold_MinT; unnamed_MaxT]]).

(** Two periods, all six elements. *)
Definition complete : Value :=
  body (VArr [located
    [ element "Wx" [slot "06:00" "18:00" (named "多雲"); slot "18:00" "06:00" (named "晴")];
      element "PoP" [slot "06:00" "18:00" (named "20"); slot "18:00" "06:00" (named "")];
      element "MinT" [slot "06:00" "18:00" (named "18"); slot "18:00" "06:00" (named "16")];
      element "CI" [slot "06:00" "18:00" (named "舒適"); slot "18:00" "06:00" (named "稍有寒意")];
      element "MaxT" [slot "06:00" "18:00" (named "24"); slot "18:00" "06:00" (named "21")] ]]).

(** [complete] with the elements after the first listed in another order. *)
Definition complete_reordered : Value :=
  body (VArr [located
    [ element "Wx" [slot "06:00" "18:00" (named "多雲"); slot "18:00" "06:00" (named "晴")];
      element "MaxT" [slot "06:00" "18:00" (named "24"); slot "18:00" "06:00" (named "21")];
      element "CI" [slot "06:00" "18:00" (named "舒適"); slot "18:00" "06:00" (named "稍有寒意")];
      element "PoP" [slot "06:00" "18:00" (named "20"); slot "18:00" "06:00" (named "")];
      element "MinT" [slot "06:00" "18:00" (named "18"); slot "18:00" "06:00" (named "16")] ]]).



(** The 200 answer to [complete], for Taipei. *)
Definition complete_answer : WeatherData :=
  Eval vm_compute in
    match outcome (getCityWeather key (answering (Resolved complete)) "taipei") with
    | Responded _ (Success d) => d
    | _ => mkWeatherData VUndef "" VUndef VUndef []
    end.

End Sample.

(** ** The vocabulary of the statements *)

(** The six rows of the element table of the specification (section 4.3,
    step 3): the element name, the field it fills, the text the period is
    seeded with, and the text an empty [parameterName] ends up as. *)
Inductive Row : Type := Wx | PoP | MinT | MaxT | CI | WS.

Definition row_name (r : Row) : string :=
  match r with
  | Wx => "Wx" | PoP => "PoP" | MinT => "MinT" | MaxT => "MaxT" | CI => "CI" | WS => "WS"
  end.

Definition row_field (r : Row) (f : Forecast) : Value :=
  match r with
  | Wx => weather f
  | PoP => rain f
  | MinT => minTemp f
  | MaxT => maxTemp f
  | CI => comfort f
  | WS => windSpeed f
  end.

Definition row_seed (r : Row) : string :=
  match r with
  | Wx => "不明" | PoP => "0%" | MinT => "N/A" | MaxT => "N/A" | CI => "不明" | WS => "0"
  end.

Definition row_fallback (r : Row) : string :=
  match r with
  | Wx => "不明" | PoP => "0%" | MinT => "N/A°C" | MaxT => "N/A°C" | CI => "不明" | WS => "0"
  end.

Definition table_names : list string := ["Wx"; "PoP"; "MinT"; "MaxT"; "CI"; "WS"].

(** A [parameterName] that is a string, or is missing. *)
Definition text_or_missing (parameterName : option string) : Value :=
  match parameterName with
  | Some s => VStr s
  | None => VUndef
  end.

(** "default d if empty" *)
Definition or_default (parameterName : option string) (d : string) : string :=
  match parameterName with
  | Some s => if (s =? "")%string then d else s
  | None => d
  end.

Definition printable (v : Value) : bool :=
  match to_string v with
  | Some _ => true
  | None => false
  end.

(** The slot of [element] at time index [i]. *)
Definition slot_at (i : nat) (element : Value) : Value := item (prop element "time") i.

(** [element] can be visited at index [i]: it has a slot there (so
    [element.time[i].parameter] can be read), and the [parameterName] of
    that slot, if any, can be turned into text. *)
Definition readable (i : nat) (element : Value) : bool :=
  negb (nullish (slot_at i element))
  && printable (prop (prop (slot_at i element) "parameter") "parameterName").

(** Every element can be visited at each of the first [n] indices: the
    alignment of the time series that the data model assumes. *)
Definition aligned (n : nat) (elements : list Value) : bool :=
  forallb (fun element => forallb (fun i => readable i element) (seq 0 n)) elements.

(** The forecast list in the result of the [try] block, if there is one. *)
Definition periods_in (r : Try Outcome) : option (list Forecast) :=
  match r with
  | Ok (Responded _ (Success d)) => Some (forecasts d)
  | _ => None
  end.

(** [forecast[field of r] = v] *)
Definition set_row (r : Row) (v : Value) (f : Forecast) : Forecast :=
  match r with
  | Wx => set_weather v f
  | PoP => set_rain v f
  | MinT => set_minTemp v f
  | MaxT => set_maxTemp v f
  | CI => set_comfort v f
  | WS => set_windSpeed v f
  end.


(** The element is named after a row of the table. *)
Definition in_table (element : Value) : bool :=
  match prop element "elementName" with
  | VStr n => existsb (String.eqb n) table_names
  | _ => false
  end.

Definition ends_with (suffix : string) (v : Value) : Prop :=
  exists s, v = VStr (s ++ suffix).

(** No field of the period is empty, [rain] is a text ending in "%", and
    each temperature is "N/A" or a text ending in "°C". *)
Definition well_filled (f : Forecast) : Prop :=
  truthy (weather f) = true
  /\ truthy (comfort f) = true
  /\ truthy (windSpeed f) = true
  /\ truthy (rain f) = true
  /\ truthy (minTemp f) = true
  /\ truthy (maxTemp f) = true
  /\ ends_with "%" (rain f)
  /\ (minTemp f = VStr "N/A" \/ ends_with "°C" (minTemp f))
  /\ (maxTemp f = VStr "N/A" \/ ends_with "°C" (maxTemp f)).

(** [locationData.weatherElement] of a body, read without throwing. *)
Definition weatherElement_of (data : Value) : Value :=
  prop (item (prop (prop data "records") "location") 0) "weatherElement".

(** ** The listing routes (server.js, lines 161-189) *)

Module Listed.
Record t : Type := make { id : string; name : string; apiName : string }.
End Listed.

(** [Object.values(CITIES).map((c) => ({id: c.id, name: c.displayName,
    apiName: c.name}))], lines 166-170 and 183-187. *)
Definition listing : list Listed.t :=
  map (fun c => Listed.make (City.id c) (City.displayName c) (City.name c)) CITIES_values.

Module Welcome.
Record t : Type := make {
  message : string;
  description : string;
  endpoint : string;
  availableCities : list Listed.t;
  example : string
}.
End Welcome.

(** [GET /], lines 161-173. *)
Definition root_route : Welcome.t :=
  Welcome.make "歡迎使用台灣六都天氣預報 API"
    "提供台北市、新北市、桃園市、台中市、台南市和高雄市的天氣預報"
    "/api/weather/:city" listing "/api/weather/taipei".

Module CityList.
Record t : Type := make { success : bool; cities : list Listed.t }.
End CityList.

(** [GET /api/cities], lines 180-189. *)
Definition cities_route : CityList.t := CityList.make true listing.

(** ** The element table as a function

    The table of the specification read as a transformation of the period:
    what one element does to it at index [i], written without the reads
    and conversions of the code. *)







(** ** Properties *)

(** *** The registry *)

Lemma registered_own (city : string) :
  In city CITIES_keys -> exists c, CITIES_at city = Own c.
Proof.
  unfold CITIES_keys; simpl.
  intros H.
  repeat (destruct H as [<- | H]; [eexists; reflexivity | ]).
  contradiction.
Qed.

Lemma missing_not_registered (city : string) :
  CITIES_at city = Missing -> ~ In city CITIES_keys.
Proof.
  intros Hm Hin. destruct (registered_own city Hin) as [c Hc]. congruence.
Qed.

(** A code that [CITIES] does not answer for, neither with an own entry nor
    with an inherited member, gets the 400 envelope, before the key is
    looked at and without any outbound call. *)
Lemma unanswered_code_rejected (key : option string) (axios_get : Request -> Reply)
    (city : string) :
  CITIES_at city = Missing ->
  getCityWeather key axios_get city = mkRun [] invalid_city.
Proof.
  intros H. unfold getCityWeather. rewrite H. reflexivity.
Qed.

Lemma invalid_city_lists_six :
  exists error message valid,
    invalid_city = Responded 400 (InvalidCity error message valid)
    /\ map ValidCity.id valid = CITIES_keys
    /\ length valid = 6%nat.
Proof.
  do 3 eexists. split; [reflexivity | split; reflexivity].
Qed.

Lemma run_with_key (key : option string) (axios_get : Request -> Reply) (city : string) :
  In city CITIES_keys -> key_absent key = false ->
  getCityWeather key axios_get city
  = mkRun [request_for key (CITIES_at city)]
      match axios_get (request_for key (CITIES_at city)) with
      | Resolved data =>
          match on_resolved (CITIES_at city) city data with
          | Ok result => result
          | TypeError => server_error
          | NotEmbedded => Outside_model
          end
      | Rejected status data => on_rejected status data
      | Network_failure => server_error
      end.
Proof.
  intros Hin Hkey. destruct (registered_own city Hin) as [c Hc].
  unfold getCityWeather. rewrite Hc, Hkey. reflexivity.
Qed.

(** C5.  For every registered city code, when [CWA_API_KEY] is unset or
    empty, the handler answers 500 with the configuration-error envelope
    and makes no outbound call, whatever the upstream would have said. *)
Theorem missing_key_no_call (key : option string) (axios_get : Request -> Reply)
    (city : string) :
  In city CITIES_keys ->
  key_absent key = true ->
  getCityWeather key axios_get city
  = mkRun [] (Responded 500 (Failure "伺服器設定錯誤" "請在 .env 檔案中設定 CWA_API_KEY")).
Proof.
  intros Hin Hkey. destruct (registered_own city Hin) as [c Hc].
  unfold getCityWeather. rewrite Hc, Hkey. reflexivity.
Qed.

Lemma missing_key_no_call_witness :
  In "tainan" CITIES_keys
  /\ key_absent (Some "") = true
  /\ calls (getCityWeather (Some "") (Sample.answering Network_failure) "tainan") = []
  /\ status_of (getCityWeather (Some "") (Sample.answering Network_failure) "tainan") = Some 500.
Proof.
  assert (Hin : In "tainan" CITIES_keys) by (simpl; tauto).
  split; [exact Hin | split; [reflexivity | ]].
  rewrite (missing_key_no_call (Some "") (Sample.answering Network_failure) "tainan" Hin eq_refl).
  split; reflexivity.
Defined.

(** *** Validation of the city code *)

(** C6.  [constructor] is not one of the six codes, yet the handler never
    answers it with the invalid-city envelope: [CITIES["constructor"]] is
    the inherited [Object] function, which is truthy, so the validation of
    line 37 lets it through.  With a key set, the upstream is queried for
    the location "Object" and, on an empty result, the answer is 404. *)
Theorem constructor_passes_validation :
  ~ In "constructor" CITIES_keys
  /\ (forall key axios_get,
        outcome (getCityWeather key axios_get "constructor") <> invalid_city)
  /\ getCityWeather Sample.key (Sample.answering (Resolved (Sample.body (VArr []))))
       "constructor"
     = mkRun
         [ {| url := "https://opendata.cwa.gov.tw/api/v1/rest/datastore/F-C0032-001";
              Authorization := "CWA-TEST-KEY";
              locationName := VStr "Object" |} ]
         (Responded 404 (Failure "查無資料" "無法取得 undefined 的天氣資料")).
Proof.
  split; [ | split].
  - simpl. intros H.
    repeat (destruct H as [H | H]; [discriminate H | ]). exact H.
  - intros key axios_get. unfold getCityWeather.
    replace (CITIES_at "constructor") with (Inherited (VStr "Object")) by reflexivity.
    cbn [entry_truthy negb].
    destruct (key_absent key); cbn [outcome].
    + discriminate.
    + destruct (axios_get _) as [data | status data | ].
      * unfold on_resolved, get, bind.
        destruct (nullish data); [discriminate | ].
        destruct (truthy (prop data "records")); cbn [negb]; [ | discriminate].
        destruct (truthy (prop (prop data "records") "location")); cbn [negb];
          [ | discriminate].
        destruct (is_zero _); [discriminate | ].
        destruct (nullish (item _ 0)); [discriminate | ].
        unfold get_item.
        destruct (nullish (prop (item _ 0) "weatherElement")); [discriminate | ].
        destruct (forecasts_of _); discriminate.
      * unfold on_rejected, get. destruct (nullish data); discriminate.
      * discriminate.
  - reflexivity.
Qed.

(** C10.  With the key unset, the request for [constructor], which is not
    a registered code, is answered with the 500 configuration error, not
    with 400: the validation of line 37 has let the inherited name
    through, and the key check of line 49 is the first to object. *)
Theorem constructor_reaches_key_check :
  ~ In "constructor" CITIES_keys
  /\ forall axios_get,
       getCityWeather None axios_get "constructor"
       = mkRun [] (Responded 500 (Failure "伺服器設定錯誤" "請在 .env 檔案中設定 CWA_API_KEY")).
Proof.
  split.
  - simpl. intros H.
    repeat (destruct H as [H | H]; [discriminate H | ]). exact H.
  - intros axios_get. reflexivity.
Qed.

(** *** Answers without location data *)

Lemma on_resolved_no_data (e : Entry) (city : string) (data : Value) :
  nullish data = false ->
  truthy (prop data "records") = false
  \/ truthy (prop (prop data "records") "location") = false
  \/ prop (prop (prop data "records") "location") "length" = VNum 0 ->
  on_resolved e city data = Ok (no_data e).
Proof.
  intros Hdata Hcases. unfold on_resolved, get, bind. rewrite Hdata.
  destruct (truthy (prop data "records")) eqn:Hr; cbn [negb]; [ | reflexivity].
  destruct (truthy (prop (prop data "records") "location")) eqn:Hl; cbn [negb];
    [ | reflexivity].
  destruct Hcases as [H | [H | H]]; try discriminate H.
  rewrite H. reflexivity.
Qed.

(** C7, as the code has it.  When the upstream answers with a 2xx status
    and a body other than [null], and [records] is missing or falsy, or
    [records.location] is missing or falsy, or its [length] is 0 (the empty
    array), the handler answers 404 for that city. *)
Theorem absent_location_not_found (key : option string) (axios_get : Request -> Reply)
    (city : string) (data : Value) :
  In city CITIES_keys ->
  key_absent key = false ->
  axios_get (request_for key (CITIES_at city)) = Resolved data ->
  nullish data = false ->
  truthy (prop data "records") = false
  \/ truthy (prop (prop data "records") "location") = false
  \/ prop (prop (prop data "records") "location") "length" = VNum 0 ->
  getCityWeather key axios_get city
  = mkRun [request_for key (CITIES_at city)]
      (Responded 404
         (Failure "查無資料" ("無法取得 " ++ display_text (CITIES_at city) ++ " 的天氣資料"))).
Proof.
  intros Hin Hkey Hget Hdata Hcases.
  rewrite (run_with_key key axios_get city Hin Hkey), Hget.
  rewrite (on_resolved_no_data _ _ data Hdata Hcases). reflexivity.
Qed.

Lemma absent_location_not_found_witness :
  status_of
    (getCityWeather Sample.key (Sample.answering (Resolved (Sample.body (VArr []))))
       "kaohsiung")
  = Some 404.
Proof.
  rewrite (absent_location_not_found Sample.key
             (Sample.answering (Resolved (Sample.body (VArr [])))) "kaohsiung"
             (Sample.body (VArr []))).
  - reflexivity.
  - simpl; tauto.
  - reflexivity.
  - reflexivity.
  - reflexivity.
  - right; right; reflexivity.
Defined.

(** C7, as stated, fails: a [records.location] that is malformed by being
    an object instead of an array passes the three tests of lines 70-74;
    reading [weatherElement] of its missing first item throws, and the
    [catch] block answers 500. *)
Lemma object_location_not_404 :
  truthy (prop (prop Sample.object_location "records") "location") = true
  /\ getCityWeather Sample.key (Sample.answering (Resolved Sample.object_location)) "taipei"
     = mkRun [request_for Sample.key (CITIES_at "taipei")]
         (Responded 500 (Failure "伺服器錯誤" "無法取得天氣資料，請稍後再試"))
  /\ status_of
       (getCityWeather Sample.key (Sample.answering (Resolved Sample.object_location))
          "taipei")
     <> Some 404.
Proof.
  split; [reflexivity | split; [reflexivity | discriminate]].
Qed.

(** *** A location without [weatherElement] *)

(** C4, as the code has it.  When the first location has no
    [weatherElement] (the property is missing or [null]), reading
    [weatherElement[0]] throws inside the [try] block, and the handler
    answers with the generic 500 envelope; no forecast list is delivered. *)
Theorem missing_weatherElement_server_error (key : option string)
    (axios_get : Request -> Reply) (city : string) (data locationData : Value)
    (rest : list Value) :
  In city CITIES_keys ->
  key_absent key = false ->
  axios_get (request_for key (CITIES_at city)) = Resolved data ->
  prop (prop data "records") "location" = VArr (locationData :: rest) ->
  nullish (prop locationData "weatherElement") = true ->
  getCityWeather key axios_get city
  = mkRun [request_for key (CITIES_at city)]
      (Responded 500 (Failure "伺服器錯誤" "無法取得天氣資料，請稍後再試"))
  /\ delivered (getCityWeather key axios_get city) = None.
Proof.
  intros Hin Hkey Hget Hloc Hwe.
  rewrite (run_with_key key axios_get city Hin Hkey), Hget.
  assert (Hres : on_resolved (CITIES_at city) city data = TypeError).
  { unfold on_resolved, get, get_item, bind.
    destruct data; try discriminate Hloc.
    cbn [nullish].
    destruct (prop (VObj props) "records") eqn:Hr; try discriminate Hloc.
    cbn [truthy negb]. rewrite Hloc. cbn [truthy negb prop item nth].
    replace (is_zero _) with false by reflexivity.
    destruct (nullish locationData); [reflexivity | ].
    rewrite Hwe. reflexivity. }
  rewrite Hres. split; reflexivity.
Qed.

Lemma missing_weatherElement_server_error_witness :
  status_of
    (getCityWeather Sample.key (Sample.answering (Resolved Sample.bare_location)) "taoyuan")
  = Some 500
  /\ delivered
       (getCityWeather Sample.key (Sample.answering (Resolved Sample.bare_location))
          "taoyuan")
     = None.
Proof.
  destruct (missing_weatherElement_server_error Sample.key
              (Sample.answering (Resolved Sample.bare_location)) "taoyuan"
              Sample.bare_location (VObj [("locationName", VStr "臺北市")]) [])
    as [Hrun Hnone].
  - simpl; tauto.
  - reflexivity.
  - reflexivity.
  - reflexivity.
  - reflexivity.
  - rewrite Hrun. split; reflexivity.
Defined.

(** C4, as stated, fails: for a non-empty [records.location] whose first
    location has no [weatherElement], the answer is 500, not 404. *)
Lemma bare_location_not_404 :
  prop (item (prop (prop Sample.bare_location "records") "location") 0) "weatherElement"
  = VUndef
  /\ status_of
       (getCityWeather Sample.key (Sample.answering (Resolved Sample.bare_location))
          "taipei")
     = Some 500
  /\ status_of
       (getCityWeather Sample.key (Sample.answering (Resolved Sample.bare_location))
          "taipei")
     <> Some 404.
Proof.
  split; [reflexivity | split; [reflexivity | discriminate]].
Qed.

(** *** Upstream HTTP errors *)

(** When the upstream rejects with a status and a body that is not [null],
    the answer carries that status, and [details] is that body. *)
Lemma rejection_mirrored (key : option string) (axios_get : Request -> Reply)
    (city : string) (status : Z) (data : Value) :
  In city CITIES_keys ->
  key_absent key = false ->
  axios_get (request_for key (CITIES_at city)) = Rejected status data ->
  nullish data = false ->
  getCityWeather key axios_get city
  = mkRun [request_for key (CITIES_at city)]
      (Responded status
         (UpstreamFailure "CWA API 錯誤"
            (or_else (prop data "message") (VStr "無法取得天氣資料")) data)).
Proof.
  intros Hin Hkey Hget Hdata.
  rewrite (run_with_key key axios_get city Hin Hkey), Hget.
  unfold on_rejected, get. rewrite Hdata. reflexivity.
Qed.

(** C8.  An upstream answer with status 500 whose body is the JSON text
    [null]: axios rejects with [response.data = null]; in the [catch]
    block, [error.response.data.message] (line 148) throws while the
    envelope is being built, the exception leaves the handler, and no
    envelope with [details] is sent. *)
Theorem null_body_not_mirrored :
  getCityWeather Sample.key (Sample.answering (Rejected 500 VNull)) "taipei"
  = mkRun [request_for Sample.key (CITIES_at "taipei")] Escaped
  /\ status_of (getCityWeather Sample.key (Sample.answering (Rejected 500 VNull)) "taipei")
     = None.
Proof.
  split; reflexivity.
Qed.

(** *** The forecast list depends on the payload alone *)

Lemma periods_by_payload (e1 e2 : Entry) (city1 city2 : string) (data : Value) :
  periods_in (on_resolved e1 city1 data) = periods_in (on_resolved e2 city2 data).
Proof.
  unfold on_resolved, get, get_item, bind.
  destruct (nullish data); [reflexivity | ].
  destruct (truthy (prop data "records")); cbn [negb]; [ | reflexivity].
  destruct (truthy (prop (prop data "records") "location")); cbn [negb]; [ | reflexivity].
  destruct (is_zero _); [reflexivity | ].
  destruct (nullish (item _ 0)); [reflexivity | ].
  destruct (nullish (prop (item _ 0) "weatherElement")); [reflexivity | ].
  destruct (forecasts_of _); reflexivity.
Qed.

Lemma delivered_periods (key : option string) (axios_get : Request -> Reply)
    (city : string) (data : Value) :
  In city CITIES_keys ->
  key_absent key = false ->
  axios_get (request_for key (CITIES_at city)) = Resolved data ->
  delivered (getCityWeather key axios_get city)
  = periods_in (on_resolved (CITIES_at city) city data).
Proof.
  intros Hin Hkey Hget.
  rewrite (run_with_key key axios_get city Hin Hkey), Hget.
  unfold delivered, periods_in; cbn [outcome].
  destruct (on_resolved _ _ _) as [[s [ | | | d] | | ] | | ]; reflexivity.
Qed.

(** C9.  Two runs of the handler that receive the same payload deliver
    the same list of forecast periods (or both deliver none), whatever the
    registered city and the key of each run: the list is a function of the
    payload, with no state carried from one run to the next. *)
Theorem same_payload_same_forecasts (key1 key2 : option string)
    (axios1 axios2 : Request -> Reply) (city1 city2 : string) (data : Value) :
  In city1 CITIES_keys -> In city2 CITIES_keys ->
  key_absent key1 = false -> key_absent key2 = false ->
  axios1 (request_for key1 (CITIES_at city1)) = Resolved data ->
  axios2 (request_for key2 (CITIES_at city2)) = Resolved data ->
  delivered (getCityWeather key1 axios1 city1)
  = delivered (getCityWeather key2 axios2 city2).
Proof.
  intros Hin1 Hin2 Hk1 Hk2 Hg1 Hg2.
  rewrite (delivered_periods key1 axios1 city1 data Hin1 Hk1 Hg1).
  rewrite (delivered_periods key2 axios2 city2 data Hin2 Hk2 Hg2).
  apply periods_by_payload.
Qed.

(** *** The element table *)

Lemma or_else_text (parameterName : option string) (d : string) :
  or_else (text_or_missing parameterName) (VStr d) = VStr (or_default parameterName d).
Proof.
  destruct parameterName as [s | ]; [ | reflexivity].
  unfold or_else, or_default; cbn [text_or_missing truthy].
  destruct (s =? "")%string; reflexivity.
Qed.

Lemma visit_present (i : nat) (forecast : Forecast) (element value : Value) :
  nullish (slot_at i element) = false ->
  prop (slot_at i element) "parameter" = value ->
  truthy value = true ->
  visit i forecast element = assign (prop element "elementName") value forecast.
Proof.
  unfold slot_at. intros Hslot Hvalue Htruthy.
  unfold visit, get, get_item, bind.
  destruct (nullish element) eqn:He.
  { destruct element; discriminate He || discriminate Hslot. }
  destruct (nullish (prop element "time")) eqn:Ht.
  { destruct (prop element "time"); discriminate Ht || discriminate Hslot. }
  rewrite Hslot, Hvalue, Htruthy. reflexivity.
Qed.

(** One call of the callback.  Let the slot of an element at index [i]
    carry a present (truthy) parameter [value].  If the element name is
    outside the table, the period is left as it is.  If [parameterName] is a string or is missing,
    then [Wx] sets [weather] to it (or to "不明"), [PoP] sets [rain] to it
    (or "0") followed by "%", [MinT] sets [minTemp] and [MaxT] sets
    [maxTemp] to it (or "N/A") followed by "°C", [CI] sets [comfort] (or
    "不明") and [WS] sets [windSpeed] (or "0"). *)
Lemma element_table (i : nat) (forecast : Forecast) (element value : Value) :
  nullish (slot_at i element) = false ->
  prop (slot_at i element) "parameter" = value ->
  truthy value = true ->
  ((forall n, prop element "elementName" = VStr n -> ~ In n table_names) ->
   visit i forecast element = Ok forecast)
  /\ forall parameterName : option string,
       prop value "parameterName" = text_or_missing parameterName ->
       let text := or_default parameterName in
       (prop element "elementName" = VStr "Wx" ->
        visit i forecast element = Ok (set_weather (VStr (text "不明")) forecast))
       /\ (prop element "elementName" = VStr "PoP" ->
           visit i forecast element = Ok (set_rain (VStr (text "0" ++ "%")) forecast))
       /\ (prop element "elementName" = VStr "MinT" ->
           visit i forecast element = Ok (set_minTemp (VStr (text "N/A" ++ "°C")) forecast))
       /\ (prop element "elementName" = VStr "MaxT" ->
           visit i forecast element = Ok (set_maxTemp (VStr (text "N/A" ++ "°C")) forecast))
       /\ (prop element "elementName" = VStr "CI" ->
           visit i forecast element = Ok (set_comfort (VStr (text "不明")) forecast))
       /\ (prop element "elementName" = VStr "WS" ->
           visit i forecast element = Ok (set_windSpeed (VStr (text "0")) forecast)).
Proof.
  intros Hslot Hvalue Htruthy.
  rewrite (visit_present i forecast element value Hslot Hvalue Htruthy).
  split.
  - intros Hout. unfold assign.
    destruct (prop element "elementName") as [ | | b | z | n | items | props ];
      try reflexivity.
    specialize (Hout n eq_refl). unfold table_names in Hout.
    destruct (n =? "Wx")%string eqn:E1;
      [apply String.eqb_eq in E1; subst n; exfalso; apply Hout; simpl; tauto | ].
    destruct (n =? "PoP")%string eqn:E2;
      [apply String.eqb_eq in E2; subst n; exfalso; apply Hout; simpl; tauto | ].
    destruct (n =? "MinT")%string eqn:E3;
      [apply String.eqb_eq in E3; subst n; exfalso; apply Hout; simpl; tauto | ].
    destruct (n =? "MaxT")%string eqn:E4;
      [apply String.eqb_eq in E4; subst n; exfalso; apply Hout; simpl; tauto | ].
    destruct (n =? "CI")%string eqn:E5;
      [apply String.eqb_eq in E5; subst n; exfalso; apply Hout; simpl; tauto | ].
    destruct (n =? "WS")%string eqn:E6;
      [apply String.eqb_eq in E6; subst n; exfalso; apply Hout; simpl; tauto | ].
    reflexivity.
  - intros parameterName Hname text. subst text.
    repeat split; intros Hn; rewrite Hn; unfold assign; rewrite Hname;
      cbn [String.eqb Ascii.eqb Bool.eqb]; rewrite or_else_text; reflexivity.
Qed.

Lemma element_table_witness :
  visit 0 (seeded (VStr "06:00") (VStr "18:00"))
    (Sample.element "PoP" [Sample.slot "06:00" "18:00" (Sample.named "20")])
  = Ok (set_rain (VStr "20%") (seeded (VStr "06:00") (VStr "18:00")))
  /\ visit 0 (seeded (VStr "06:00") (VStr "18:00"))
       (Sample.element "UVI" [Sample.slot "06:00" "18:00" (Sample.named "7")])
     = Ok (seeded (VStr "06:00") (VStr "18:00")).
Proof.
  split.
  - destruct (element_table 0 (seeded (VStr "06:00") (VStr "18:00"))
                (Sample.element "PoP" [Sample.slot "06:00" "18:00" (Sample.named "20")])
                (Sample.named "20") eq_refl eq_refl eq_refl) as [_ Htable].
    destruct (Htable (Some "20") eq_refl) as [_ [Hpop _]].
    exact (Hpop eq_refl).
  - destruct (element_table 0 (seeded (VStr "06:00") (VStr "18:00"))
                (Sample.element "UVI" [Sample.slot "06:00" "18:00" (Sample.named "7")])
                (Sample.named "7") eq_refl eq_refl eq_refl) as [Hout _].
    apply Hout. intros n Hn. injection Hn as <-. simpl.
    intros H. repeat (destruct H as [H | H]; [discriminate H | ]). exact H.
Defined.

(** *** Visiting aligned elements *)

Lemma concat_or_else (parameterName : Value) (d suffix : string) :
  printable parameterName = true ->
  exists s, concat (or_else parameterName (VStr d)) suffix = Ok (VStr (s ++ suffix))
            /\ (truthy parameterName = false -> s = d).
Proof.
  unfold printable, concat, or_else. intros Hp.
  destruct (truthy parameterName).
  - destruct (to_string parameterName) as [s | ]; [ | discriminate Hp].
    exists s. split; [reflexivity | discriminate].
  - exists d. split; reflexivity.
Qed.

Lemma row_of_name (n : string) :
  (exists r, n = row_name r) \/ (forall value forecast, assign (VStr n) value forecast = Ok forecast).
Proof.
  destruct (n =? "Wx")%string eqn:E1;
    [apply String.eqb_eq in E1; left; exists Wx; exact E1 | ].
  destruct (n =? "PoP")%string eqn:E2;
    [apply String.eqb_eq in E2; left; exists PoP; exact E2 | ].
  destruct (n =? "MinT")%string eqn:E3;
    [apply String.eqb_eq in E3; left; exists MinT; exact E3 | ].
  destruct (n =? "MaxT")%string eqn:E4;
    [apply String.eqb_eq in E4; left; exists MaxT; exact E4 | ].
  destruct (n =? "CI")%string eqn:E5;
    [apply String.eqb_eq in E5; left; exists CI; exact E5 | ].
  destruct (n =? "WS")%string eqn:E6;
    [apply String.eqb_eq in E6; left; exists WS; exact E6 | ].
  right. intros value forecast. unfold assign.
  rewrite E1, E2, E3, E4, E5, E6. reflexivity.
Qed.

(** What the [switch] does for the row [r]: it fills the field of [r],
    with the fallback text when [parameterName] is falsy, and touches
    neither the other rows' fields nor the times. *)
Lemma assign_row (r : Row) (value : Value) (forecast : Forecast) :
  printable (prop value "parameterName") = true ->
  exists forecast',
    assign (VStr (row_name r)) value forecast = Ok forecast'
    /\ startTime forecast' = startTime forecast
    /\ endTime forecast' = endTime forecast
    /\ (forall r', r' <> r -> row_field r' forecast' = row_field r' forecast)
    /\ (truthy (prop value "parameterName") = false ->
        row_field r forecast' = VStr (row_fallback r)).
Proof.
  intros Hp. unfold assign.
  destruct r; cbn [row_name String.eqb Ascii.eqb Bool.eqb].
  - eexists. split; [reflexivity | ]. repeat split.
    + intros r' Hr'. destruct r'; try reflexivity. congruence.
    + intros Hf. cbn. unfold or_else. rewrite Hf. reflexivity.
  - destruct (concat_or_else (prop value "parameterName") "0" "%" Hp) as [s [Hs Hd]].
    rewrite Hs. cbn [bind]. eexists. split; [reflexivity | ]. repeat split.
    + intros r' Hr'. destruct r'; try reflexivity. congruence.
    + intros Hf. cbn. rewrite (Hd Hf). reflexivity.
  - destruct (concat_or_else (prop value "parameterName") "N/A" "°C" Hp) as [s [Hs Hd]].
    rewrite Hs. cbn [bind]. eexists. split; [reflexivity | ]. repeat split.
    + intros r' Hr'. destruct r'; try reflexivity. congruence.
    + intros Hf. cbn. rewrite (Hd Hf). reflexivity.
  - destruct (concat_or_else (prop value "parameterName") "N/A" "°C" Hp) as [s [Hs Hd]].
    rewrite Hs. cbn [bind]. eexists. split; [reflexivity | ]. repeat split.
    + intros r' Hr'. destruct r'; try reflexivity. congruence.
    + intros Hf. cbn. rewrite (Hd Hf). reflexivity.
  - eexists. split; [reflexivity | ]. repeat split.
    + intros r' Hr'. destruct r'; try reflexivity. congruence.
    + intros Hf. cbn. unfold or_else. rewrite Hf. reflexivity.
  - eexists. split; [reflexivity | ]. repeat split.
    + intros r' Hr'. destruct r'; try reflexivity. congruence.
    + intros Hf. cbn. unfold or_else. rewrite Hf. reflexivity.
Qed.

Lemma visit_unfold (i : nat) (forecast : Forecast) (element : Value) :
  nullish (slot_at i element) = false ->
  visit i forecast element
  = if truthy (prop (slot_at i element) "parameter")
    then assign (prop element "elementName") (prop (slot_at i element) "parameter") forecast
    else Ok forecast.
Proof.
  unfold slot_at. intros Hslot.
  unfold visit, get, get_item, bind.
  destruct (nullish element) eqn:He.
  { destruct element; discriminate He || discriminate Hslot. }
  destruct (nullish (prop element "time")) eqn:Ht.
  { destruct (prop element "time"); discriminate Ht || discriminate Hslot. }
  rewrite Hslot. reflexivity.
Qed.

Lemma readable_slot (i : nat) (element : Value) :
  readable i element = true ->
  nullish (slot_at i element) = false
  /\ printable (prop (prop (slot_at i element) "parameter") "parameterName") = true.
Proof.
  unfold readable. intros H. apply andb_prop in H. destruct H as [H1 H2].
  split; [ | exact H2]. destruct (nullish _); [discriminate H1 | reflexivity].
Qed.

(** Visiting a readable element succeeds and keeps the times; it keeps
    the field of every row the element is not named after. *)
Lemma visit_readable (i : nat) (forecast : Forecast) (element : Value) :
  readable i element = true ->
  exists forecast',
    visit i forecast element = Ok forecast'
    /\ startTime forecast' = startTime forecast
    /\ endTime forecast' = endTime forecast
    /\ (forall r, prop element "elementName" <> VStr (row_name r) ->
                  row_field r forecast' = row_field r forecast).
Proof.
  intros Hr. destruct (readable_slot i element Hr) as [Hslot Hp].
  rewrite (visit_unfold i forecast element Hslot).
  destruct (truthy (prop (slot_at i element) "parameter")).
  - destruct (prop element "elementName") as [ | | b | z | n | items | props ];
      try (exists forecast; repeat split; reflexivity).
    destruct (row_of_name n) as [[r ->] | Hout].
    + destruct (assign_row r _ forecast Hp) as [f' [Hf' [Hs [He [Hother _]]]]].
      exists f'. repeat split; try assumption.
      intros r' Hr'. apply Hother. congruence.
    + rewrite Hout. exists forecast. repeat split; reflexivity.
  - exists forecast. repeat split; reflexivity.
Qed.

Lemma forEach_readable (i : nat) (elements : list Value) (forecast : Forecast) :
  forallb (readable i) elements = true ->
  exists forecast',
    forEach i elements forecast = Ok forecast'
    /\ startTime forecast' = startTime forecast
    /\ endTime forecast' = endTime forecast
    /\ (forall r, (forall e, In e elements -> prop e "elementName" <> VStr (row_name r)) ->
                  row_field r forecast' = row_field r forecast).
Proof.
  revert forecast. induction elements as [ | e rest IH]; intros forecast Hall.
  - exists forecast. repeat split; reflexivity.
  - cbn [forallb] in Hall. apply andb_prop in Hall. destruct Hall as [He Hrest].
    destruct (visit_readable i forecast e He) as [f1 [Hv [Hs1 [He1 Hk1]]]].
    destruct (IH f1 Hrest) as [f2 [Hf [Hs2 [He2 Hk2]]]].
    exists f2. cbn [forEach]. rewrite Hv. cbn [bind]. rewrite Hf.
    repeat split; try congruence.
    intros r Hnone. rewrite Hk2, Hk1; [reflexivity | | ].
    + apply Hnone. left; reflexivity.
    + intros e' Hin. apply Hnone. right; exact Hin.
Qed.

Lemma forEach_app (i : nat) (before after : list Value) (forecast : Forecast) :
  forEach i (before ++ after) forecast
  = (forecast' <- forEach i before forecast ;; forEach i after forecast').
Proof.
  revert forecast. induction before as [ | e rest IH]; intros forecast.
  - reflexivity.
  - cbn [forEach app]. destruct (visit i forecast e); cbn [bind]; [apply IH | | ]; reflexivity.
Qed.

(** *** The loop over the time axis *)

Lemma period_unfold (i : nat) (element0 : Value) (others : list Value) :
  nullish (slot_at i element0) = false ->
  period (VArr (element0 :: others)) i
  = forEach i (element0 :: others)
      (seeded (prop (slot_at i element0) "startTime") (prop (slot_at i element0) "endTime")).
Proof.
  unfold slot_at. intros Hslot.
  unfold period, get, get_item, bind. cbn [nullish item nth].
  destruct (nullish element0) eqn:He.
  { destruct element0; discriminate He || discriminate Hslot. }
  destruct (nullish (prop element0 "time")) eqn:Ht.
  { destruct (prop element0 "time"); discriminate Ht || discriminate Hslot. }
  rewrite Hslot. reflexivity.
Qed.

Lemma aligned_at (n j : nat) (elements : list Value) :
  aligned n elements = true -> (j < n)%nat -> forallb (readable j) elements = true.
Proof.
  unfold aligned. intros Hall Hj.
  rewrite forallb_forall in Hall |- *.
  intros e He. specialize (Hall e He). rewrite forallb_forall in Hall.
  apply Hall. apply in_seq. lia.
Qed.

Lemma loop_readable (element0 : Value) (others : list Value) (n : nat) :
  forall (i : nat) (acc : list Forecast),
    (forall j, (i <= j < i + n)%nat -> forallb (readable j) (element0 :: others) = true) ->
    exists periods,
      loop (VArr (element0 :: others)) n i acc = Ok (acc ++ periods)%list
      /\ map startTime periods
         = map (fun j => prop (slot_at j element0) "startTime") (seq i n)
      /\ map endTime periods
         = map (fun j => prop (slot_at j element0) "endTime") (seq i n).
Proof.
  induction n as [ | n IH]; intros i acc Hall.
  - exists []. cbn [loop]. rewrite app_nil_r. repeat split; reflexivity.
  - assert (Hi : forallb (readable i) (element0 :: others) = true) by (apply Hall; lia).
    assert (H0 : readable i element0 = true).
    { cbn [forallb] in Hi. apply andb_prop in Hi. exact (proj1 Hi). }
    destruct (readable_slot i element0 H0) as [Hslot _].
    destruct (forEach_readable i (element0 :: others)
                (seeded (prop (slot_at i element0) "startTime")
                        (prop (slot_at i element0) "endTime")) Hi)
      as [f [Hf [Hs [He _]]]].
    destruct (IH (S i) (acc ++ [f])%list) as [rest [Hloop [Hss Hes]]].
    { intros j Hj. apply Hall. lia. }
    exists (f :: rest). cbn [loop].
    rewrite (period_unfold i element0 others Hslot), Hf. cbn [bind].
    rewrite Hloop, <- app_assoc. cbn [app map seq].
    rewrite Hss, Hes, Hs, He. repeat split; reflexivity.
Qed.

Lemma map_nth_indices {A B : Type} (g : A -> B) (d : A) (l : list A) :
  map (fun j => g (nth j l d)) (seq 0 (length l)) = map g l.
Proof.
  induction l as [ | a l IH].
  - reflexivity.
  - cbn [length seq map nth]. f_equal.
    rewrite <- seq_shift, map_map. exact IH.
Qed.

(** The periods of a payload whose elements are aligned with the time axis
    of element 0. *)
Lemma forecasts_of_aligned (element0 : Value) (others slots : list Value) :
  prop element0 "time" = VArr slots ->
  aligned (length slots) (element0 :: others) = true ->
  exists periods,
    forecasts_of (VArr (element0 :: others)) = Ok periods
    /\ map startTime periods = map (fun slot => prop slot "startTime") slots
    /\ map endTime periods = map (fun slot => prop slot "endTime") slots.
Proof.
  intros Htime Hal.
  destruct (loop_readable element0 others (length slots) 0 []) as [periods [Hloop [Hs He]]].
  { intros j Hj. apply (aligned_at (length slots)); [exact Hal | lia]. }
  exists periods. split.
  - unfold forecasts_of, get, get_item, bind. cbn [nullish item nth].
    destruct (nullish element0) eqn:H0.
    { destruct element0; discriminate H0 || discriminate Htime. }
    rewrite Htime. cbn [nullish prop String.eqb Ascii.eqb Bool.eqb iterations].
    rewrite Nat2Z.id. exact Hloop.
  - unfold slot_at in Hs, He. rewrite Htime in Hs, He. cbn [item] in Hs, He.
    rewrite Hs, He.
    split; apply (map_nth_indices (fun slot => prop slot _) VUndef slots).
Qed.

(** *** Length and order of the forecast list *)

(** C1, as the code has it.  Let [records.location] be a non-empty array
    whose first location has a non-empty [weatherElement] array, let
    element 0 carry a [time] array, and let every element be aligned with
    it (a slot at each index of element 0's series, with a printable
    [parameterName]).  Then the handler answers 200, the forecast list is
    as long as element 0's time series, and its i-th period has the
    [startTime] and [endTime] of element 0's i-th slot, in that order. *)
Theorem forecasts_follow_time_axis (key : option string) (axios_get : Request -> Reply)
    (city : string) (data locationData : Value) (rest : list Value)
    (element0 : Value) (others slots : list Value) :
  In city CITIES_keys ->
  key_absent key = false ->
  axios_get (request_for key (CITIES_at city)) = Resolved data ->
  prop (prop data "records") "location" = VArr (locationData :: rest) ->
  prop locationData "weatherElement" = VArr (element0 :: others) ->
  prop element0 "time" = VArr slots ->
  aligned (length slots) (element0 :: others) = true ->
  exists d,
    outcome (getCityWeather key axios_get city) = Responded 200 (Success d)
    /\ length (forecasts d) = length slots
    /\ map startTime (forecasts d) = map (fun slot => prop slot "startTime") slots
    /\ map endTime (forecasts d) = map (fun slot => prop slot "endTime") slots.
Proof.
  intros Hin Hkey Hget Hloc Hwe Htime Hal.
  destruct (forecasts_of_aligned element0 others slots Htime Hal) as [periods [Hp [Hs He]]].
  rewrite (run_with_key key axios_get city Hin Hkey), Hget. cbn [outcome].
  unfold on_resolved, get, get_item, bind.
  destruct data; try discriminate Hloc.
  cbn [nullish].
  destruct (prop (VObj props) "records") eqn:Hr; try discriminate Hloc.
  cbn [truthy negb]. rewrite Hloc. cbn [truthy negb prop item nth].
  replace (is_zero _) with false by reflexivity.
  destruct (nullish locationData) eqn:Hl.
  { destruct locationData; discriminate Hl || discriminate Hwe. }
  rewrite Hwe. cbn [nullish item nth]. rewrite Hp.
  eexists. split; [reflexivity | ]. cbn [forecasts].
  split; [ | split; assumption].
  rewrite <- (length_map startTime), Hs. apply length_map.
Qed.

Lemma forecasts_follow_time_axis_witness :
  exists d,
    outcome (getCityWeather Sample.key (Sample.answering (Resolved Sample.complete)) "taichung")
    = Responded 200 (Success d)
    /\ length (forecasts d) = 2%nat
    /\ map startTime (forecasts d) = [VStr "06:00"; VStr "18:00"]
    /\ map endTime (forecasts d) = [VStr "18:00"; VStr "06:00"].
Proof.
  exact (forecasts_follow_time_axis Sample.key
           (Sample.answering (Resolved Sample.complete)) "taichung" Sample.complete
           (item (prop (prop Sample.complete "records") "location") 0) []
           (Sample.element "Wx"
              [Sample.slot "06:00" "18:00" (Sample.named "多雲");
               Sample.slot "18:00" "06:00" (Sample.named "晴")])
           _
           [Sample.slot "06:00" "18:00" (Sample.named "多雲");
            Sample.slot "18:00" "06:00" (Sample.named "晴")]
           (or_intror (or_intror (or_intror (or_introl eq_refl))))
           eq_refl eq_refl eq_refl eq_refl eq_refl eq_refl).
Defined.

(** C1, as stated, fails: in [Sample.ragged] the location list and the
    [weatherElement] array are non-empty and element 0 has two slots, but
    [PoP] has one; at index 1, [element.time[1].parameter] throws, and the
    handler answers 500 without any forecast list. *)
Lemma ragged_no_forecasts :
  prop
    (prop
       (item (prop (item (prop (prop Sample.ragged "records") "location") 0) "weatherElement") 0)
       "time")
    "length"
  = VNum 2
  /\ getCityWeather Sample.key (Sample.answering (Resolved Sample.ragged)) "taipei"
     = mkRun [request_for Sample.key (CITIES_at "taipei")]
         (Responded 500 (Failure "伺服器錯誤" "無法取得天氣資料，請稍後再試"))
  /\ delivered (getCityWeather Sample.key (Sample.answering (Resolved Sample.ragged)) "taipei")
     = None.
Proof.
  split; [reflexivity | split; reflexivity].
Qed.

(** *** Fields of a value without a name *)

Lemma seeded_row (r : Row) (start_time end_time : Value) :
  row_field r (seeded start_time end_time) = VStr (row_seed r).
Proof. destruct r; reflexivity. Qed.

(** C3, as the code has it.  In a period built from readable elements,
    take the one element named after row [r].  If its slot has no
    parameter, the field of [r] keeps the text the period was seeded with:
    "不明", "0%", "N/A", "N/A", "不明", "0".  If its slot has a parameter
    whose [parameterName] is empty or missing, the field is the fallback
    text: "不明", "0%", "N/A°C", "N/A°C", "不明", "0". *)
Theorem unnamed_value_defaults (r : Row) (i : nat) (before after : list Value)
    (element : Value) :
  prop element "elementName" = VStr (row_name r) ->
  (forall e, In e (before ++ after) -> prop e "elementName" <> VStr (row_name r)) ->
  forallb (readable i) (before ++ element :: after) = true ->
  exists forecast,
    period (VArr (before ++ element :: after)) i = Ok forecast
    /\ (truthy (prop (slot_at i element) "parameter") = false ->
        row_field r forecast = VStr (row_seed r))
    /\ (truthy (prop (slot_at i element) "parameter") = true ->
        truthy (prop (prop (slot_at i element) "parameter") "parameterName") = false ->
        row_field r forecast = VStr (row_fallback r)).
Proof.
  intros Hname Hothers Hall.
  assert (Hperiod : exists start_time end_time,
             period (VArr (before ++ element :: after)) i
             = forEach i (before ++ element :: after) (seeded start_time end_time)).
  { destruct (before ++ element :: after)%list as [ | e0 others] eqn:E.
    - destruct before; discriminate E.
    - cbn [forallb] in Hall. apply andb_prop in Hall. destruct Hall as [H0 _].
      destruct (readable_slot i e0 H0) as [Hslot _].
      do 2 eexists. apply (period_unfold i e0 others Hslot). }
  destruct Hperiod as [start_time [end_time Hperiod]]. rewrite Hperiod.
  rewrite forallb_app in Hall. apply andb_prop in Hall. destruct Hall as [Hb Hea].
  cbn [forallb] in Hea. apply andb_prop in Hea. destruct Hea as [He Ha].
  destruct (forEach_readable i before (seeded start_time end_time) Hb)
    as [f1 [Hf1 [_ [_ Hk1]]]].
  assert (Hseed : row_field r f1 = VStr (row_seed r)).
  { rewrite Hk1; [apply seeded_row | ].
    intros e Hin. apply Hothers. apply in_or_app. left; exact Hin. }
  destruct (readable_slot i element He) as [Hslot Hp].
  assert (Hvisit : exists f2,
             visit i f1 element = Ok f2
             /\ (truthy (prop (slot_at i element) "parameter") = false ->
                 row_field r f2 = VStr (row_seed r))
             /\ (truthy (prop (slot_at i element) "parameter") = true ->
                 truthy (prop (prop (slot_at i element) "parameter") "parameterName") = false ->
                 row_field r f2 = VStr (row_fallback r))).
  { rewrite (visit_unfold i f1 element Hslot), Hname.
    destruct (truthy (prop (slot_at i element) "parameter")).
    - destruct (assign_row r (prop (slot_at i element) "parameter") f1 Hp)
        as [f2 [Hf2 [_ [_ [_ Hfall]]]]].
      exists f2. split; [exact Hf2 | split; [discriminate | ]].
      intros _ Hfalsy. exact (Hfall Hfalsy).
    - exists f1. split; [reflexivity | split; [intros _; exact Hseed | discriminate]]. }
  destruct Hvisit as [f2 [Hf2 [Hkeep Hfall]]].
  destruct (forEach_readable i after f2 Ha) as [f3 [Hf3 [_ [_ Hk3]]]].
  assert (Hlast : row_field r f3 = row_field r f2).
  { apply Hk3. intros e Hin. apply Hothers. apply in_or_app. right; exact Hin. }
  exists f3. rewrite forEach_app, Hf1. cbn [bind forEach]. rewrite Hf2. cbn [bind].
  split; [exact Hf3 | ]. rewrite Hlast. split; assumption.
Qed.

Lemma unnamed_value_defaults_witness :
  (exists forecast,
     period (VArr [Sample.cloudy; Sample.untold_MinT; Sample.unnamed_MaxT]) 0 = Ok forecast
     /\ minTemp forecast = VStr "N/A")
  /\ (exists forecast,
        period (VArr [Sample.cloudy; Sample.untold_MinT; Sample.unnamed_MaxT]) 0 = Ok forecast
        /\ maxTemp forecast = VStr "N/A°C").
Proof.
  split.
  - destruct (unnamed_value_defaults MinT 0 [Sample.cloudy] [Sample.unnamed_MaxT]
                Sample.untold_MinT eq_refl) as [forecast [Hperiod [Hseed _]]].
    + intros e [<- | [<- | []]]; discriminate.
    + reflexivity.
    + exists forecast. split; [exact Hperiod | exact (Hseed eq_refl)].
  - destruct (unnamed_value_defaults MaxT 0 [Sample.cloudy; Sample.untold_MinT] []
                Sample.unnamed_MaxT eq_refl) as [forecast [Hperiod [_ Hfall]]].
    + intros e [<- | [<- | []]]; discriminate.
    + reflexivity.
    + exists forecast. split; [exact Hperiod | exact (Hfall eq_refl eq_refl)].
Defined.

(** C3, as stated, fails: in [Sample.untold] the slot of [MinT] has no
    parameter at all, and [minTemp] is the seeded "N/A", not "N/A°C"; the
    slot of [MaxT], whose parameter has an empty name, gives "N/A°C". *)
Lemma absent_parameter_keeps_seed :
  delivered (getCityWeather Sample.key (Sample.answering (Resolved Sample.untold)) "taipei")
  = Some [ {| startTime := VStr "06:00";
              endTime := VStr "18:00";
              weather := VStr "多雲";
              rain := VStr "0%";
              minTemp := VStr "N/A";
              maxTemp := VStr "N/A°C";
              comfort := VStr "不明";
              windSpeed := VStr "0" |} ]
  /\ VStr "N/A" <> VStr "N/A°C".
Proof.
  split; [reflexivity | discriminate].
Qed.

Lemma same_payload_same_forecasts_witness :
  delivered (getCityWeather Sample.key (Sample.answering (Resolved Sample.complete)) "taipei")
  = delivered
      (getCityWeather (Some "ANOTHER-KEY") (Sample.answering (Resolved Sample.complete))
         "tainan")
  /\ delivered
       (getCityWeather Sample.key (Sample.answering (Resolved Sample.complete)) "taipei")
     <> None.
Proof.
  split.
  - apply (same_payload_same_forecasts Sample.key (Some "ANOTHER-KEY")
             (Sample.answering (Resolved Sample.complete))
             (Sample.answering (Resolved Sample.complete))
             "taipei" "tainan" Sample.complete).
    + simpl; tauto.
    + simpl; tauto.
    + reflexivity.
    + reflexivity.
    + reflexivity.
    + reflexivity.
  - discriminate.
Defined.

(** *** Sample runs *)

Example complete_run :
  delivered (getCityWeather Sample.key (Sample.answering (Resolved Sample.complete)) "taipei")
  = Some [ mkForecast (VStr "06:00") (VStr "18:00") (VStr "多雲") (VStr "20%")
             (VStr "18°C") (VStr "24°C") (VStr "舒適") (VStr "0");
           mkForecast (VStr "18:00") (VStr "06:00") (VStr "晴") (VStr "0%")
             (VStr "16°C") (VStr "21°C") (VStr "稍有寒意") (VStr "0") ].
Proof. reflexivity. Qed.

Example unknown_code_run :
  getCityWeather None (Sample.answering Network_failure) "hsinchu"
  = mkRun []
      (Responded 400
         (InvalidCity "無效的城市代碼"
            "城市代碼必須是: taipei, newtaipei, taoyuan, taichung, tainan, kaohsiung"
            [ ValidCity.make "taipei" "台北市"; ValidCity.make "newtaipei" "新北市";
              ValidCity.make "taoyuan" "桃園市"; ValidCity.make "taichung" "台中市";
              ValidCity.make "tainan" "台南市"; ValidCity.make "kaohsiung" "高雄市" ])).
Proof. reflexivity. Qed.

Example upstream_401_run :
  outcome
    (getCityWeather Sample.key
       (Sample.answering (Rejected 401 (VObj [("message", VStr "Unauthorized")]))) "taipei")
  = Responded 401
      (UpstreamFailure "CWA API 錯誤" (VStr "Unauthorized")
         (VObj [("message", VStr "Unauthorized")])).
Proof. reflexivity. Qed.

Example code_units_count : length (code_units "不明a°C") = 5%nat.
Proof. reflexivity. Qed.

Example to_string_of_array :
  to_string (VArr [VNum 12; VNull; VStr "多雲"; VArr [VBool true; VNum (-3)]])
  = Some "12,,多雲,true,-3".
Proof. reflexivity. Qed.

(** ** Further properties of the handler *)

(** *** What a visit can do *)

Lemma get_ok (v : Value) (k : string) (x : Value) :
  get v k = Ok x -> nullish v = false /\ x = prop v k.
Proof.
  unfold get. destruct (nullish v); [discriminate | ].
  intros H. injection H as <-. split; reflexivity.
Qed.

Lemma get_item_ok (v : Value) (i : nat) (x : Value) :
  get_item v i = Ok x -> nullish v = false /\ x = item v i.
Proof.
  unfold get_item. destruct (nullish v); [discriminate | ].
  intros H. injection H as <-. split; reflexivity.
Qed.

Lemma set_row_times (r : Row) (v : Value) (f : Forecast) :
  startTime (set_row r v f) = startTime f /\ endTime (set_row r v f) = endTime f.
Proof. destruct r; split; reflexivity. Qed.


Lemma set_row_other (r r' : Row) (v : Value) (f : Forecast) :
  r' <> r -> row_field r' (set_row r v f) = row_field r' f.
Proof. intros Hne. destruct r, r'; try reflexivity; congruence. Qed.

Lemma set_row_commute (r r' : Row) (v v' : Value) (f : Forecast) :
  r <> r' -> set_row r v (set_row r' v' f) = set_row r' v' (set_row r v f).
Proof. intros Hne. destruct r, r'; try reflexivity; congruence. Qed.

(** The [switch] either throws whatever the period, or leaves every period
    as it is, or stores one value, fixed by the element, in the field of
    the row the element is named after. *)
Lemma assign_shape (elementName value : Value) :
  (forall f, assign elementName value f = TypeError)
  \/ (forall f, assign elementName value f = Ok f)
  \/ (exists r v, elementName = VStr (row_name r)
                  /\ forall f, assign elementName value f = Ok (set_row r v f)).
Proof.
  destruct elementName as [ | | b | z | n | items | props ];
    try (right; left; intros f; reflexivity).
  destruct (row_of_name n) as [[r ->] | Hout]; [ | right; left; intros f; apply Hout].
  unfold assign, concat.
  destruct r; cbn [row_name String.eqb Ascii.eqb Bool.eqb].
  - right; right. exists Wx. eexists. split; [reflexivity | intros f; reflexivity].
  - destruct (to_string (or_else (prop value "parameterName") (VStr "0"))) as [s | ].
    + right; right. exists PoP. eexists. split; [reflexivity | intros f; reflexivity].
    + left; intros f; reflexivity.
  - destruct (to_string (or_else (prop value "parameterName") (VStr "N/A"))) as [s | ].
    + right; right. exists MinT. eexists. split; [reflexivity | intros f; reflexivity].
    + left; intros f; reflexivity.
  - destruct (to_string (or_else (prop value "parameterName") (VStr "N/A"))) as [s | ].
    + right; right. exists MaxT. eexists. split; [reflexivity | intros f; reflexivity].
    + left; intros f; reflexivity.
  - right; right. exists CI. eexists. split; [reflexivity | intros f; reflexivity].
  - right; right. exists WS. eexists. split; [reflexivity | intros f; reflexivity].
Qed.

Lemma visit_no_slot (i : nat) (element : Value) (f : Forecast) :
  nullish (slot_at i element) = true -> visit i f element = TypeError.
Proof.
  unfold slot_at. intros Hslot. unfold visit, get, get_item, bind.
  destruct (nullish element); [reflexivity | ].
  destruct (nullish (prop element "time")); [reflexivity | ].
  rewrite Hslot. reflexivity.
Qed.

(** The same for the callback: it throws exactly when the [switch] does or
    the element has no slot at the index. *)
Lemma visit_shape (i : nat) (element : Value) :
  (forall f, visit i f element = TypeError)
  \/ (nullish (slot_at i element) = false
      /\ ((forall f, visit i f element = Ok f)
          \/ (exists r v, prop element "elementName" = VStr (row_name r)
                          /\ forall f, visit i f element = Ok (set_row r v f)))).
Proof.
  destruct (nullish (slot_at i element)) eqn:Hslot.
  - left. intros f. apply visit_no_slot. exact Hslot.
  - destruct (truthy (prop (slot_at i element) "parameter")) eqn:Htruthy.
    + destruct (assign_shape (prop element "elementName") (prop (slot_at i element) "parameter"))
        as [Hthrow | [Hskip | [r [v [Hname Hset]]]]].
      * left. intros f. rewrite (visit_unfold i f element Hslot), Htruthy. apply Hthrow.
      * right. split; [reflexivity | left]. intros f.
        rewrite (visit_unfold i f element Hslot), Htruthy. apply Hskip.
      * right. split; [reflexivity | right]. exists r, v. split; [exact Hname | ].
        intros f. rewrite (visit_unfold i f element Hslot), Htruthy. apply Hset.
    + right. split; [reflexivity | left]. intros f.
      rewrite (visit_unfold i f element Hslot), Htruthy. reflexivity.
Qed.

Lemma visit_times (i : nat) (element : Value) (f f' : Forecast) :
  visit i f element = Ok f' ->
  nullish (slot_at i element) = false
  /\ startTime f' = startTime f /\ endTime f' = endTime f.
Proof.
  intros Hv.
  destruct (visit_shape i element) as [Hthrow | [Hslot [Hskip | [r [v [_ Hset]]]]]].
  - rewrite Hthrow in Hv. discriminate Hv.
  - rewrite Hskip in Hv. injection Hv as <-. repeat split; [exact Hslot].
  - rewrite Hset in Hv. injection Hv as <-.
    split; [exact Hslot | apply set_row_times].
Qed.

Lemma forEach_times (i : nat) (elements : list Value) :
  forall f f', forEach i elements f = Ok f' ->
    (forall e, In e elements -> nullish (slot_at i e) = false)
    /\ startTime f' = startTime f /\ endTime f' = endTime f.
Proof.
  induction elements as [ | e rest IH]; intros f f' H.
  - injection H as <-. split; [intros e [] | split; reflexivity].
  - cbn [forEach] in H. destruct (visit i f e) as [f1 | | ] eqn:Hv; try discriminate H.
    cbn [bind] in H.
    destruct (visit_times i e f f1 Hv) as [Hslot [Hs He]].
    destruct (IH f1 f' H) as [Hall [Hs' He']].
    split; [ | split; congruence].
    intros e' [<- | Hin]; [exact Hslot | apply Hall; exact Hin].
Qed.

Lemma visit_embedded (i : nat) (element : Value) (f : Forecast) :
  visit i f element <> NotEmbedded.
Proof.
  destruct (visit_shape i element) as [H | [_ [H | [r [v [_ H]]]]]];
    rewrite H; discriminate.
Qed.

Lemma forEach_embedded (i : nat) (elements : list Value) :
  forall f, forEach i elements f <> NotEmbedded.
Proof.
  induction elements as [ | e rest IH]; intros f; cbn [forEach].
  - discriminate.
  - destruct (visit i f e) as [f1 | | ] eqn:Hv; cbn [bind].
    + apply IH.
    + discriminate.
    + exfalso. exact (visit_embedded i e f Hv).
Qed.

(** *** What a delivered list tells about the payload *)

Lemma period_inv (weatherElements : Value) (i : nat) (f : Forecast) :
  period weatherElements i = Ok f ->
  (exists elements, weatherElements = VArr elements
                    /\ forall e, In e elements -> nullish (slot_at i e) = false)
  /\ startTime f = prop (slot_at i (item weatherElements 0)) "startTime"
  /\ endTime f = prop (slot_at i (item weatherElements 0)) "endTime".
Proof.
  unfold period, slot_at. intros H.
  destruct (get_item weatherElements 0) as [e0 | | ] eqn:H0; try discriminate H.
  apply get_item_ok in H0. destruct H0 as [_ ->]. cbn [bind] in H.
  destruct (get (item weatherElements 0) "time") as [t0 | | ] eqn:Ht; try discriminate H.
  apply get_ok in Ht. destruct Ht as [_ ->]. cbn [bind] in H.
  destruct (get_item (prop (item weatherElements 0) "time") i) as [s0 | | ] eqn:Hs;
    try discriminate H.
  apply get_item_ok in Hs. destruct Hs as [_ ->]. cbn [bind] in H.
  destruct (get (item (prop (item weatherElements 0) "time") i) "startTime")
    as [st | | ] eqn:Hst; try discriminate H.
  apply get_ok in Hst. destruct Hst as [_ ->]. cbn [bind] in H.
  destruct (get (item (prop (item weatherElements 0) "time") i) "endTime")
    as [et | | ] eqn:Het; try discriminate H.
  apply get_ok in Het. destruct Het as [_ ->]. cbn [bind] in H.
  destruct weatherElements as [ | | b | z | s | elements | props ]; try discriminate H.
  destruct (forEach_times i elements _ f H) as [Hall [Hs He]].
  split; [exists elements; split; [reflexivity | exact Hall] | ].
  split; [rewrite Hs | rewrite He]; reflexivity.
Qed.

Lemma period_embedded (weatherElements : Value) (i : nat) :
  period weatherElements i <> NotEmbedded.
Proof.
  unfold period, get, get_item, bind.
  destruct (nullish weatherElements); [discriminate | ].
  destruct (nullish (item weatherElements 0)); [discriminate | ].
  destruct (nullish (prop (item weatherElements 0) "time")); [discriminate | ].
  destruct (nullish (item (prop (item weatherElements 0) "time") i)); [discriminate | ].
  destruct weatherElements; try discriminate.
  apply forEach_embedded.
Qed.

Lemma loop_inv (weatherElements : Value) (n : nat) :
  forall (i : nat) (acc periods : list Forecast),
    loop weatherElements n i acc = Ok periods ->
    exists added,
      periods = (acc ++ added)%list
      /\ map startTime added
         = map (fun j => prop (slot_at j (item weatherElements 0)) "startTime") (seq i n)
      /\ map endTime added
         = map (fun j => prop (slot_at j (item weatherElements 0)) "endTime") (seq i n)
      /\ forall j, (i <= j < i + n)%nat -> exists f, period weatherElements j = Ok f.
Proof.
  induction n as [ | n IH]; intros i acc periods H.
  - cbn [loop] in H. injection H as <-. exists []. rewrite app_nil_r.
    repeat split; try reflexivity. intros j Hj. lia.
  - cbn [loop] in H.
    destruct (period weatherElements i) as [f | | ] eqn:Hp; try discriminate H.
    cbn [bind] in H.
    destruct (IH (S i) (acc ++ [f])%list periods H) as [added [-> [Hs [He Hall]]]].
    destruct (period_inv weatherElements i f Hp) as [_ [Hfs Hfe]].
    exists (f :: added). rewrite <- app_assoc. cbn [app map seq].
    rewrite Hs, He, Hfs, Hfe. repeat split; try reflexivity.
    intros j Hj. destruct (Nat.eq_dec j i) as [-> | Hne].
    + exists f. exact Hp.
    + apply Hall. lia.
Qed.

Lemma loop_embedded (weatherElements : Value) (n : nat) :
  forall (i : nat) (acc : list Forecast), loop weatherElements n i acc <> NotEmbedded.
Proof.
  induction n as [ | n IH]; intros i acc; cbn [loop].
  - discriminate.
  - destruct (period weatherElements i) as [f | | ] eqn:Hp; cbn [bind].
    + apply IH.
    + discriminate.
    + exfalso. exact (period_embedded weatherElements i Hp).
Qed.

Lemma forecasts_of_inv (weatherElements : Value) (periods : list Forecast) :
  forecasts_of weatherElements = Ok periods ->
  exists n,
    iterations (prop (prop (item weatherElements 0) "time") "length") = Ok n
    /\ loop weatherElements n 0 [] = Ok periods.
Proof.
  unfold forecasts_of. intros H.
  destruct (get_item weatherElements 0) as [e0 | | ] eqn:H0; try discriminate H.
  apply get_item_ok in H0. destruct H0 as [_ ->]. cbn [bind] in H.
  destruct (get (item weatherElements 0) "time") as [t0 | | ] eqn:Ht; try discriminate H.
  apply get_ok in Ht. destruct Ht as [_ ->]. cbn [bind] in H.
  destruct (get (prop (item weatherElements 0) "time") "length") as [c | | ] eqn:Hc;
    try discriminate H.
  apply get_ok in Hc. destruct Hc as [_ ->]. cbn [bind] in H.
  destruct (iterations _) as [n | | ] eqn:Hn; try discriminate H.
  exists n. split; [reflexivity | exact H].
Qed.

(** The result of the [try] block is the 404 envelope or the 200 envelope
    around the periods of [locationData.weatherElement]. *)
Lemma on_resolved_inv (e : Entry) (c : string) (data : Value) (o : Outcome) :
  on_resolved e c data = Ok o ->
  o = no_data e
  \/ exists periods,
       forecasts_of (weatherElement_of data) = Ok periods
       /\ o = Responded 200
                (Success
                   {| city := entry_displayName e;
                      cityId := c;
                      updateTime := prop (prop data "records") "datasetDescription";
                      forecastTime :=
                        or_else
                          (prop (item (prop (item (weatherElement_of data) 0) "time") 0)
                             "startTime") VNull;
                      forecasts := periods |}).
Proof.
  unfold on_resolved, weatherElement_of. intros H.
  destruct (get data "records") as [records | | ] eqn:Hr; try discriminate H.
  apply get_ok in Hr. destruct Hr as [_ ->]. cbn [bind] in H.
  destruct (truthy (prop data "records")); cbn [negb] in H;
    [ | injection H as <-; left; reflexivity].
  destruct (truthy (prop (prop data "records") "location")); cbn [negb] in H;
    [ | injection H as <-; left; reflexivity].
  destruct (is_zero _); [injection H as <-; left; reflexivity | ].
  destruct (get (item (prop (prop data "records") "location") 0) "weatherElement")
    as [we | | ] eqn:Hwe; try discriminate H.
  apply get_ok in Hwe. destruct Hwe as [_ ->]. cbn [bind] in H.
  destruct (get_item _ 0) as [e0 | | ] eqn:H0; try discriminate H.
  apply get_item_ok in H0. destruct H0 as [_ ->]. cbn [bind] in H.
  destruct (forecasts_of _) as [periods | | ] eqn:Hf; try discriminate H.
  cbn [bind] in H. injection H as <-.
  right. exists periods. split; reflexivity.
Qed.

(** A 200 answer comes from the [try] block, after the upstream resolved. *)
Lemma success_inv (key : option string) (axios_get : Request -> Reply) (c : string)
    (s : Z) (d : WeatherData) :
  outcome (getCityWeather key axios_get c) = Responded s (Success d) ->
  exists data,
    axios_get (request_for key (CITIES_at c)) = Resolved data
    /\ key_absent key = false
    /\ calls (getCityWeather key axios_get c) = [request_for key (CITIES_at c)]
    /\ on_resolved (CITIES_at c) c data = Ok (Responded s (Success d)).
Proof.
  unfold getCityWeather.
  destruct (entry_truthy (CITIES_at c)); cbn [negb]; [ | discriminate].
  destruct (key_absent key); [discriminate | ]. cbn [outcome calls].
  destruct (axios_get _) as [data | status data | ]; try discriminate.
  - destruct (on_resolved _ c data) as [o | | ] eqn:Ho; try discriminate.
    intros ->. exists data. repeat split; try reflexivity. exact Ho.
  - unfold on_rejected. destruct (get data "message"); discriminate.
Qed.

(** X1.  Whenever the handler answers with a forecast list, and element 0
    of the payload carries a [time] array, the status is 200, the list has
    exactly one period per slot of that array, with the slot's times, in
    order, and every element of the payload has a slot at every index:
    there are no partial lists. *)
Theorem delivered_one_period_per_slot (key : option string) (axios_get : Request -> Reply)
    (c : string) (s : Z) (d : WeatherData) (data : Value) (slots elements : list Value) :
  outcome (getCityWeather key axios_get c) = Responded s (Success d) ->
  axios_get (request_for key (CITIES_at c)) = Resolved data ->
  weatherElement_of data = VArr elements ->
  prop (item (weatherElement_of data) 0) "time" = VArr slots ->
  s = 200
  /\ length (forecasts d) = length slots
  /\ map startTime (forecasts d) = map (fun slot => prop slot "startTime") slots
  /\ map endTime (forecasts d) = map (fun slot => prop slot "endTime") slots
  /\ forall j e, (j < length slots)%nat -> In e elements -> nullish (slot_at j e) = false.
Proof.
  intros Hout Hget Hwe Htime.
  destruct (success_inv key axios_get c s d Hout) as [data' [Hget' [_ [_ Hres]]]].
  rewrite Hget in Hget'. injection Hget' as <-.
  destruct (on_resolved_inv _ c data _ Hres) as [Hno | [periods [Hf Ho]]];
    [discriminate Hno | ].
  injection Ho as -> ->. cbn [forecasts].
  destruct (forecasts_of_inv _ periods Hf) as [n [Hn Hloop]].
  rewrite Htime in Hn. cbn [prop String.eqb Ascii.eqb Bool.eqb iterations] in Hn.
  injection Hn as <-. rewrite Nat2Z.id in Hloop.
  destruct (loop_inv _ _ 0 [] periods Hloop) as [added [-> [Hs [He Hall]]]].
  cbn [app]. unfold slot_at in Hs, He. rewrite Htime in Hs, He. cbn [item] in Hs, He.
  rewrite (map_nth_indices (fun slot => prop slot "startTime") VUndef slots) in Hs.
  rewrite (map_nth_indices (fun slot => prop slot "endTime") VUndef slots) in He.
  split; [reflexivity | ]. split.
  { rewrite <- (length_map startTime), Hs. apply length_map. }
  split; [exact Hs | split; [exact He | ]].
  intros j e Hj Hin.
  destruct (Hall j) as [f Hp]; [lia | ].
  destruct (period_inv _ j f Hp) as [[es [Hes Hslots]] _].
  rewrite Hwe in Hes. injection Hes as <-. apply Hslots. exact Hin.
Qed.

Lemma delivered_one_period_per_slot_witness :
  length (forecasts Sample.complete_answer) = 2%nat
  /\ map startTime (forecasts Sample.complete_answer) = [VStr "06:00"; VStr "18:00"].
Proof.
  destruct (delivered_one_period_per_slot Sample.key
              (Sample.answering (Resolved Sample.complete)) "taipei" 200
              Sample.complete_answer Sample.complete
              [Sample.slot "06:00" "18:00" (Sample.named "多雲");
               Sample.slot "18:00" "06:00" (Sample.named "晴")]
              _ eq_refl eq_refl eq_refl eq_refl) as [_ [Hlen [Hs _]]].
  split; [exact Hlen | exact Hs].
Defined.

(** X2.  In every 200 answer with at least one period, [forecastTime] is
    the [startTime] of the first period, or [null] when that is empty or
    missing. *)
Theorem forecastTime_is_first_startTime (key : option string)
    (axios_get : Request -> Reply) (c : string) (s : Z) (d : WeatherData)
    (first : Forecast) (later : list Forecast) :
  outcome (getCityWeather key axios_get c) = Responded s (Success d) ->
  forecasts d = first :: later ->
  forecastTime d = or_else (startTime first) VNull.
Proof.
  intros Hout Hfirst.
  destruct (success_inv key axios_get c s d Hout) as [data [_ [_ [_ Hres]]]].
  destruct (on_resolved_inv _ c data _ Hres) as [Hno | [periods [Hf Ho]]];
    [discriminate Hno | ].
  injection Ho as -> ->. cbn [forecasts forecastTime] in *. subst periods.
  destruct (forecasts_of_inv _ _ Hf) as [n [_ Hloop]].
  destruct (loop_inv _ _ 0 [] _ Hloop) as [added [Hadd [Hs _]]].
  cbn [app] in Hadd. subst added.
  destruct n as [ | n]; [discriminate Hs | ].
  cbn [seq map] in Hs. injection Hs as Hs _. rewrite Hs. reflexivity.
Qed.

Lemma forecastTime_is_first_startTime_witness :
  forecastTime Sample.complete_answer = VStr "06:00".
Proof.
  exact (forecastTime_is_first_startTime Sample.key
           (Sample.answering (Resolved Sample.complete)) "taipei" 200
           Sample.complete_answer _ _ eq_refl eq_refl).
Defined.

(** *** A missing slot anywhere *)

Lemma on_resolved_shaped (e : Entry) (c : string) (data locationData : Value)
    (rest : list Value) (element0 : Value) (others : list Value) :
  prop (prop data "records") "location" = VArr (locationData :: rest) ->
  prop locationData "weatherElement" = VArr (element0 :: others) ->
  on_resolved e c data
  = (periods <- forecasts_of (VArr (element0 :: others)) ;;
     Ok (Responded 200
           (Success
              {| city := entry_displayName e;
                 cityId := c;
                 updateTime := prop (prop data "records") "datasetDescription";
                 forecastTime :=
                   or_else (prop (item (prop element0 "time") 0) "startTime") VNull;
                 forecasts := periods |}))).
Proof.
  intros Hloc Hwe. unfold on_resolved, get, get_item, bind.
  destruct data; try discriminate Hloc.
  cbn [nullish].
  destruct (prop (VObj props) "records") eqn:Hr; try discriminate Hloc.
  cbn [truthy negb]. rewrite Hloc. cbn [truthy negb prop item nth].
  replace (is_zero _) with false by reflexivity.
  destruct (nullish locationData) eqn:Hl.
  { destruct locationData; discriminate Hl || discriminate Hwe. }
  rewrite Hwe. reflexivity.
Qed.

Lemma forecasts_of_array (element0 : Value) (others slots : list Value) :
  prop element0 "time" = VArr slots ->
  forecasts_of (VArr (element0 :: others))
  = loop (VArr (element0 :: others)) (length slots) 0 [].
Proof.
  intros Htime. unfold forecasts_of, get, get_item, bind. cbn [nullish item nth].
  destruct (nullish element0) eqn:H0.
  { destruct element0; discriminate H0 || discriminate Htime. }
  rewrite Htime. cbn [nullish prop String.eqb Ascii.eqb Bool.eqb iterations].
  rewrite Nat2Z.id. reflexivity.
Qed.

(** X3.  All or nothing: when any weather element lacks a slot at any
    index of element 0's time series, the handler answers with the generic
    500 envelope and delivers no forecast at all, however many periods were
    complete. *)
Theorem missing_slot_server_error (key : option string) (axios_get : Request -> Reply)
    (c : string) (data locationData : Value) (rest : list Value)
    (element0 : Value) (others slots : list Value) (j : nat) (e : Value) :
  In c CITIES_keys ->
  key_absent key = false ->
  axios_get (request_for key (CITIES_at c)) = Resolved data ->
  prop (prop data "records") "location" = VArr (locationData :: rest) ->
  prop locationData "weatherElement" = VArr (element0 :: others) ->
  prop element0 "time" = VArr slots ->
  (j < length slots)%nat ->
  In e (element0 :: others) ->
  nullish (slot_at j e) = true ->
  getCityWeather key axios_get c
  = mkRun [request_for key (CITIES_at c)]
      (Responded 500 (Failure "伺服器錯誤" "無法取得天氣資料，請稍後再試")).
Proof.
  intros Hin Hkey Hget Hloc Hwe Htime Hj He Hslot.
  rewrite (run_with_key key axios_get c Hin Hkey), Hget.
  rewrite (on_resolved_shaped _ c data locationData rest element0 others Hloc Hwe).
  rewrite (forecasts_of_array element0 others slots Htime).
  destruct (loop _ (length slots) 0 []) as [periods | | ] eqn:Hloop; cbn [bind].
  - exfalso.
    destruct (loop_inv _ _ 0 [] periods Hloop) as [added [_ [_ [_ Hall]]]].
    destruct (Hall j) as [f Hp]; [lia | ].
    destruct (period_inv _ j f Hp) as [[es [Hes Hslots]] _].
    injection Hes as <-. rewrite (Hslots e He) in Hslot. discriminate Hslot.
  - reflexivity.
  - exfalso. exact (loop_embedded _ _ 0 [] Hloop).
Qed.

Lemma missing_slot_server_error_witness :
  getCityWeather Sample.key (Sample.answering (Resolved Sample.ragged)) "newtaipei"
  = mkRun [request_for Sample.key (CITIES_at "newtaipei")]
      (Responded 500 (Failure "伺服器錯誤" "無法取得天氣資料，請稍後再試")).
Proof.
  apply (missing_slot_server_error Sample.key (Sample.answering (Resolved Sample.ragged))
           "newtaipei" Sample.ragged
           (item (prop (prop Sample.ragged "records") "location") 0) []
           (Sample.element "Wx"
              [Sample.slot "06:00" "18:00" (Sample.named "多雲");
               Sample.slot "18:00" "06:00" (Sample.named "晴")])
           [Sample.element "PoP" [Sample.slot "06:00" "18:00" (Sample.named "20")]]
           [Sample.slot "06:00" "18:00" (Sample.named "多雲");
            Sample.slot "18:00" "06:00" (Sample.named "晴")]
           1%nat
           (Sample.element "PoP" [Sample.slot "06:00" "18:00" (Sample.named "20")])).
  - simpl; tauto.
  - reflexivity.
  - reflexivity.
  - reflexivity.
  - reflexivity.
  - reflexivity.
  - simpl; lia.
  - right; left; reflexivity.
  - reflexivity.
Defined.

(** *** No field is ever empty *)

Lemma or_else_truthy (a b : Value) : truthy b = true -> truthy (or_else a b) = true.
Proof. unfold or_else. intros Hb. destruct (truthy a) eqn:Ha; assumption. Qed.

Lemma suffixed_truthy (s suffix : string) :
  suffix <> "" -> truthy (VStr (s ++ suffix)) = true.
Proof.
  intros Hne. cbn [truthy]. destruct s as [ | a s]; cbn [append].
  - destruct suffix; [congruence | reflexivity].
  - reflexivity.
Qed.

Lemma concat_inv (a : Value) (suffix : string) (v : Value) :
  concat a suffix = Ok v -> ends_with suffix v.
Proof.
  unfold concat. destruct (to_string a) as [s | ]; [ | discriminate].
  intros H. injection H as <-. exists s. reflexivity.
Qed.

Lemma ends_with_truthy (suffix : string) (v : Value) :
  suffix <> "" -> ends_with suffix v -> truthy v = true.
Proof. intros Hne [s ->]. apply suffixed_truthy. exact Hne. Qed.

Lemma seeded_well_filled (start_time end_time : Value) :
  well_filled (seeded start_time end_time).
Proof.
  unfold well_filled, seeded; cbn.
  repeat split; try reflexivity.
  - exists "0". reflexivity.
  - left; reflexivity.
  - left; reflexivity.
Qed.

Lemma assign_well_filled (elementName value : Value) (f f' : Forecast) :
  well_filled f -> assign elementName value f = Ok f' -> well_filled f'.
Proof.
  intros Hf. unfold assign.
  destruct elementName as [ | | b | z | n | items | props ];
    try (intros H; injection H as <-; exact Hf).
  destruct Hf as [Hw [Hc [Hws [Hr [Hmin [Hmax [Hre [Hmine Hmaxe]]]]]]]].
  destruct (n =? "Wx")%string.
  { intros H; injection H as <-. unfold well_filled; cbn.
    repeat split; try assumption. apply or_else_truthy; reflexivity. }
  destruct (n =? "PoP")%string.
  { destruct (concat _ "%") as [v | | ] eqn:Hv; try discriminate.
    cbn [bind]. intros H; injection H as <-. apply concat_inv in Hv.
    unfold well_filled; cbn. repeat split; try assumption.
    apply (ends_with_truthy "%"); [discriminate | exact Hv]. }
  destruct (n =? "MinT")%string.
  { destruct (concat _ "°C") as [v | | ] eqn:Hv; try discriminate.
    cbn [bind]. intros H; injection H as <-. apply concat_inv in Hv.
    unfold well_filled; cbn. repeat split; try assumption.
    - apply (ends_with_truthy "°C"); [discriminate | exact Hv].
    - right; exact Hv. }
  destruct (n =? "MaxT")%string.
  { destruct (concat _ "°C") as [v | | ] eqn:Hv; try discriminate.
    cbn [bind]. intros H; injection H as <-. apply concat_inv in Hv.
    unfold well_filled; cbn. repeat split; try assumption.
    - apply (ends_with_truthy "°C"); [discriminate | exact Hv].
    - right; exact Hv. }
  destruct (n =? "CI")%string.
  { intros H; injection H as <-. unfold well_filled; cbn.
    repeat split; try assumption. apply or_else_truthy; reflexivity. }
  destruct (n =? "WS")%string.
  { intros H; injection H as <-. unfold well_filled; cbn.
    repeat split; try assumption. apply or_else_truthy; reflexivity. }
  intros H; injection H as <-.
  unfold well_filled. repeat split; assumption.
Qed.

Lemma visit_well_filled (i : nat) (element : Value) (f f' : Forecast) :
  well_filled f -> visit i f element = Ok f' -> well_filled f'.
Proof.
  intros Hf Hv.
  destruct (nullish (slot_at i element)) eqn:Hslot.
  - rewrite (visit_no_slot i element f Hslot) in Hv. discriminate Hv.
  - rewrite (visit_unfold i f element Hslot) in Hv.
    destruct (truthy _) in Hv.
    + exact (assign_well_filled _ _ f f' Hf Hv).
    + injection Hv as <-. exact Hf.
Qed.

Lemma forEach_well_filled (i : nat) (elements : list Value) :
  forall f f', well_filled f -> forEach i elements f = Ok f' -> well_filled f'.
Proof.
  induction elements as [ | e rest IH]; intros f f' Hf H.
  - injection H as <-. exact Hf.
  - cbn [forEach] in H. destruct (visit i f e) as [f1 | | ] eqn:Hv; try discriminate H.
    cbn [bind] in H. apply (IH f1 f'); [ | exact H].
    exact (visit_well_filled i e f f1 Hf Hv).
Qed.

Lemma period_well_filled (weatherElements : Value) (i : nat) (f : Forecast) :
  period weatherElements i = Ok f -> well_filled f.
Proof.
  unfold period. intros H.
  destruct (get_item weatherElements 0) as [e0 | | ]; try discriminate H. cbn [bind] in H.
  destruct (get e0 "time") as [t0 | | ]; try discriminate H. cbn [bind] in H.
  destruct (get_item t0 i) as [s0 | | ]; try discriminate H. cbn [bind] in H.
  destruct (get s0 "startTime") as [st | | ]; try discriminate H. cbn [bind] in H.
  destruct (get s0 "endTime") as [et | | ]; try discriminate H. cbn [bind] in H.
  destruct weatherElements; try discriminate H.
  exact (forEach_well_filled i _ _ f (seeded_well_filled st et) H).
Qed.

Lemma loop_well_filled (weatherElements : Value) (n : nat) :
  forall (i : nat) (acc periods : list Forecast),
    Forall well_filled acc ->
    loop weatherElements n i acc = Ok periods ->
    Forall well_filled periods.
Proof.
  induction n as [ | n IH]; intros i acc periods Hacc H; cbn [loop] in H.
  - injection H as <-. exact Hacc.
  - destruct (period weatherElements i) as [f | | ] eqn:Hp; try discriminate H.
    cbn [bind] in H. apply (IH (S i) (acc ++ [f])%list periods); [ | exact H].
    apply Forall_app. split; [exact Hacc | ].
    constructor; [exact (period_well_filled _ i f Hp) | constructor].
Qed.

(** X4.  In every 200 answer, every period has all six weather fields
    non-empty (never [undefined], [null] or ""), [rain] is a text ending in
    "%", and [minTemp] and [maxTemp] are "N/A" or a text ending in "°C",
    whatever the payload contained. *)
Theorem delivered_fields_filled (key : option string) (axios_get : Request -> Reply)
    (c : string) (s : Z) (d : WeatherData) :
  outcome (getCityWeather key axios_get c) = Responded s (Success d) ->
  Forall well_filled (forecasts d).
Proof.
  intros Hout.
  destruct (success_inv key axios_get c s d Hout) as [data [_ [_ [_ Hres]]]].
  destruct (on_resolved_inv _ c data _ Hres) as [Hno | [periods [Hf Ho]]];
    [discriminate Hno | ].
  injection Ho as -> ->. cbn [forecasts].
  destruct (forecasts_of_inv _ periods Hf) as [n [_ Hloop]].
  exact (loop_well_filled _ n 0 [] periods (Forall_nil _) Hloop).
Qed.

Lemma delivered_fields_filled_witness :
  Forall well_filled (forecasts Sample.complete_answer).
Proof.
  exact (delivered_fields_filled Sample.key (Sample.answering (Resolved Sample.complete))
           "taipei" 200 Sample.complete_answer eq_refl).
Defined.

(** *** Elements outside the table *)

Lemma assign_outside (element value : Value) (f : Forecast) :
  in_table element = false ->
  assign (prop element "elementName") value f = Ok f.
Proof.
  unfold in_table, assign.
  destruct (prop element "elementName") as [ | | b | z | n | items | props ];
    try reflexivity.
  unfold table_names. cbn [existsb]. intros H.
  repeat (apply orb_false_elim in H; destruct H as [?E H]).
  rewrite E, E0, E1, E2, E3, E4. reflexivity.
Qed.

(** X5.  Elements whose name is outside the table are ignored: as long as
    each of them has a slot at the index, a period built from all elements
    is the period built from the elements of the table alone (also when
    building it fails). *)
Theorem unknown_elements_ignored (i : nat) (elements : list Value) :
  (forall e, In e elements -> in_table e = false -> nullish (slot_at i e) = false) ->
  forall f, forEach i (filter in_table elements) f = forEach i elements f.
Proof.
  induction elements as [ | e rest IH]; intros Hslots f.
  - reflexivity.
  - cbn [filter]. destruct (in_table e) eqn:Hin.
    + cbn [forEach]. destruct (visit i f e) as [f1 | | ]; cbn [bind]; try reflexivity.
      apply IH. intros e' He'. apply Hslots. right; exact He'.
    + cbn [forEach].
      assert (Hslot : nullish (slot_at i e) = false) by (apply Hslots; [left; reflexivity | exact Hin]).
      assert (Hv : visit i f e = Ok f).
      { rewrite (visit_unfold i f e Hslot).
        destruct (truthy _); [apply assign_outside; exact Hin | reflexivity]. }
      rewrite Hv. cbn [bind].
      apply IH. intros e' He'. apply Hslots. right; exact He'.
Qed.

Lemma unknown_elements_ignored_witness :
  forEach 0
    [Sample.cloudy;
     Sample.element "UVI" [Sample.slot "06:00" "18:00" (Sample.named "7")];
     Sample.unnamed_MaxT]
    (seeded (VStr "06:00") (VStr "18:00"))
  = forEach 0 [Sample.cloudy; Sample.unnamed_MaxT] (seeded (VStr "06:00") (VStr "18:00")).
Proof.
  symmetry.
  apply (unknown_elements_ignored 0
           [Sample.cloudy;
            Sample.element "UVI" [Sample.slot "06:00" "18:00" (Sample.named "7")];
            Sample.unnamed_MaxT]).
  intros e [<- | [<- | [<- | []]]] H; try discriminate H. reflexivity.
Defined.

(** *** The order of the elements *)

Lemma bind_assoc {A B C : Type} (c : Try A) (k : A -> Try B) (h : B -> Try C) :
  bind (bind c k) h = bind c (fun a => bind (k a) h).
Proof. destruct c; reflexivity. Qed.

Lemma visit_swap (i : nat) (x y : Value) (f : Forecast) :
  prop x "elementName" <> prop y "elementName" ->
  (f1 <- visit i f x ;; visit i f1 y) = (f1 <- visit i f y ;; visit i f1 x).
Proof.
  intros Hne.
  destruct (visit_shape i x) as [Hx | [_ Hx]]; destruct (visit_shape i y) as [Hy | [_ Hy]].
  - rewrite Hx, Hy. reflexivity.
  - rewrite Hx. destruct Hy as [Hy | [r [v [_ Hy]]]]; rewrite Hy; cbn [bind]; rewrite Hx;
      reflexivity.
  - rewrite Hy. destruct Hx as [Hx | [r [v [_ Hx]]]]; rewrite Hx; cbn [bind]; rewrite Hy;
      reflexivity.
  - destruct Hx as [Hx | [r [v [Hnx Hx]]]]; destruct Hy as [Hy | [r' [v' [Hny Hy]]]];
      rewrite Hx, Hy; cbn [bind]; rewrite ?Hx, ?Hy; try reflexivity.
    f_equal. apply set_row_commute. intros ->. apply Hne. congruence.
Qed.

(** When no two elements carry the same [elementName], the [forEach] over
    them, started from a given period, gives the same result in every
    order of the elements. *)
Lemma distinct_names_any_order (i : nat) (elements elements' : list Value) :
  Permutation elements elements' ->
  NoDup (map (fun e => prop e "elementName") elements) ->
  forall f, forEach i elements f = forEach i elements' f.
Proof.
  intros Hperm. induction Hperm as [ | x l l' Hp IH | x y l | l l' l'' Hp1 IH1 Hp2 IH2 ];
    intros Hnd f.
  - reflexivity.
  - cbn [forEach]. cbn [map] in Hnd. inversion Hnd as [ | ? ? _ Hnd']; subst.
    destruct (visit i f x); cbn [bind]; try reflexivity. apply IH. exact Hnd'.
  - cbn [map] in Hnd. inversion Hnd as [ | ? ? Hnotin _]; subst.
    assert (Hne : prop x "elementName" <> prop y "elementName").
    { intros Heq. apply Hnotin. left. exact Heq. }
    cbn [forEach].
    transitivity (bind (bind (visit i f y) (fun f1 => visit i f1 x)) (forEach i l)).
    { symmetry. apply bind_assoc. }
    rewrite <- (visit_swap i x y f Hne). apply bind_assoc.
  - rewrite (IH1 Hnd f). apply IH2.
    apply (Permutation_NoDup (Permutation_map _ Hp1) Hnd).
Qed.

Lemma distinct_names_any_order_witness :
  forEach 0 [Sample.cloudy; Sample.unnamed_MaxT] (seeded (VStr "06:00") (VStr "18:00"))
  = forEach 0 [Sample.unnamed_MaxT; Sample.cloudy] (seeded (VStr "06:00") (VStr "18:00")).
Proof.
  apply (distinct_names_any_order 0 [Sample.cloudy; Sample.unnamed_MaxT]
           [Sample.unnamed_MaxT; Sample.cloudy]).
  - apply perm_swap.
  - cbn [map]. constructor.
    + intros [H | []]. discriminate H.
    + constructor; [intros [] | constructor].
Defined.

(** *** The last element of a name decides *)





(** *** Which requests are rejected, and how *)

Lemma find_key_none {A : Type} (k : string) (l : list (string * A)) :
  find_key k l = None <-> ~ In k (map fst l).
Proof.
  induction l as [ | [k' a] l IH]; cbn [find_key map fst In].
  - split; [intros _ [] | reflexivity].
  - destruct (k =? k')%string eqn:E.
    + apply String.eqb_eq in E. subst k'. split; [discriminate | ].
      intros H. exfalso. apply H. left; reflexivity.
    + apply String.eqb_neq in E. rewrite IH. split.
      * intros H [H' | H']; [congruence | exact (H H')].
      * intros H H'. apply H. right; exact H'.
Qed.

Lemma missing_iff (c : string) :
  CITIES_at c = Missing
  <-> ~ In c CITIES_keys /\ ~ In c (map fst Object_prototype).
Proof.
  unfold CITIES_at, CITIES_keys.
  rewrite <- !find_key_none.
  destruct (find_key c CITIES); [split; [discriminate | intros [H _]; discriminate H] | ].
  destruct (find_key c Object_prototype);
    [split; [discriminate | intros [_ H]; discriminate H] | ].
  split; [split; reflexivity | reflexivity].
Qed.

Lemma answered_not_invalid (key : option string) (axios_get : Request -> Reply)
    (c : string) :
  entry_truthy (CITIES_at c) = true ->
  outcome (getCityWeather key axios_get c) <> invalid_city.
Proof.
  intros He. unfold getCityWeather. rewrite He. cbn [negb].
  destruct (key_absent key); cbn [outcome]; [discriminate | ].
  destruct (axios_get _) as [data | status data | ].
  - destruct (on_resolved _ c data) as [o | | ] eqn:Ho; try discriminate.
    destruct (on_resolved_inv _ c data o Ho) as [-> | [periods [_ ->]]]; discriminate.
  - unfold on_rejected. destruct (get data "message"); discriminate.
  - discriminate.
Qed.

(** X8.  The handler answers with the invalid-city envelope exactly for
    the codes that are neither one of the six keys of [CITIES] nor the name
    of a member of [Object.prototype]; for those it makes no outbound
    call, whatever the key. *)
Theorem invalid_city_iff (key : option string) (axios_get : Request -> Reply) (c : string) :
  (outcome (getCityWeather key axios_get c) = invalid_city
   <-> ~ In c CITIES_keys /\ ~ In c (map fst Object_prototype))
  /\ (outcome (getCityWeather key axios_get c) = invalid_city ->
      calls (getCityWeather key axios_get c) = []).
Proof.
  rewrite <- missing_iff.
  assert (Hiff : outcome (getCityWeather key axios_get c) = invalid_city
                 <-> CITIES_at c = Missing).
  { split.
    - intros Hout. destruct (CITIES_at c) eqn:He; [ | | reflexivity]; exfalso;
        apply (answered_not_invalid key axios_get c); try exact Hout; rewrite He; reflexivity.
    - intros Hm. rewrite (unanswered_code_rejected key axios_get c Hm). reflexivity. }
  split; [exact Hiff | ].
  intros Hout. apply Hiff in Hout.
  rewrite (unanswered_code_rejected key axios_get c Hout). reflexivity.
Qed.

(** X9.  For a registered city with the key set and an upstream that
    resolved, the answer has status 404 exactly when the body is not [null]
    and [records] is falsy, or [records.location] is falsy, or its
    [length] is 0: nothing else in a resolved body leads to 404. *)
Theorem not_found_iff (key : option string) (axios_get : Request -> Reply) (c : string)
    (data : Value) :
  In c CITIES_keys ->
  key_absent key = false ->
  axios_get (request_for key (CITIES_at c)) = Resolved data ->
  (status_of (getCityWeather key axios_get c) = Some 404
   <-> nullish data = false
       /\ (truthy (prop data "records") = false
           \/ truthy (prop (prop data "records") "location") = false
           \/ is_zero (prop (prop (prop data "records") "location") "length") = true)).
Proof.
  intros Hin Hkey Hget.
  rewrite (run_with_key key axios_get c Hin Hkey), Hget.
  unfold status_of; cbn [outcome].
  unfold on_resolved, get, bind.
  destruct (nullish data).
  { split; [discriminate | intros [H _]; discriminate H]. }
  destruct (truthy (prop data "records")); cbn [negb];
    [ | split; [intros _; split; [reflexivity | left; reflexivity] | reflexivity]].
  destruct (truthy (prop (prop data "records") "location")); cbn [negb];
    [ | split; [intros _; split; [reflexivity | right; left; reflexivity] | reflexivity]].
  destruct (is_zero _);
    [split; [intros _; split; [reflexivity | right; right; reflexivity] | reflexivity] | ].
  split.
  - intros H. exfalso.
    destruct (nullish (item _ 0)); [discriminate H | ].
    unfold get_item in H.
    destruct (nullish (prop (item _ 0) "weatherElement")); [discriminate H | ].
    destruct (forecasts_of _); discriminate H.
  - intros [_ [H | [H | H]]]; discriminate H.
Qed.

Lemma not_found_iff_witness :
  status_of
    (getCityWeather Sample.key (Sample.answering (Resolved (VStr "Service Unavailable")))
       "taipei")
  = Some 404.
Proof.
  apply (not_found_iff Sample.key (Sample.answering (Resolved (VStr "Service Unavailable")))
           "taipei" (VStr "Service Unavailable")).
  - simpl; tauto.
  - reflexivity.
  - reflexivity.
  - split; [reflexivity | left; reflexivity].
Defined.

(** X10.  For a registered city with the key set: when the upstream rejects
    with a status and a body other than [null], the answer carries that
    status, [details] is that body, and [message] is the body's [message]
    if it has a non-empty one and the fixed text otherwise; when the
    request fails below HTTP, the answer is the generic 500.  Either way
    exactly one request was made and no forecast is delivered. *)
Theorem upstream_failure_outcomes (key : option string) (axios_get : Request -> Reply)
    (c : string) :
  In c CITIES_keys ->
  key_absent key = false ->
  (forall status data,
      axios_get (request_for key (CITIES_at c)) = Rejected status data ->
      nullish data = false ->
      getCityWeather key axios_get c
      = mkRun [request_for key (CITIES_at c)]
          (Responded status
             (UpstreamFailure "CWA API 錯誤"
                (if truthy (prop data "message") then prop data "message"
                 else VStr "無法取得天氣資料")
                data)))
  /\ (axios_get (request_for key (CITIES_at c)) = Network_failure ->
      getCityWeather key axios_get c
      = mkRun [request_for key (CITIES_at c)]
          (Responded 500 (Failure "伺服器錯誤" "無法取得天氣資料，請稍後再試")))
  /\ ((forall data, axios_get (request_for key (CITIES_at c)) <> Resolved data) ->
      delivered (getCityWeather key axios_get c) = None).
Proof.
  intros Hin Hkey. split; [ | split].
  - intros status data Hget Hdata.
    exact (rejection_mirrored key axios_get c status data Hin Hkey Hget Hdata).
  - intros Hget. rewrite (run_with_key key axios_get c Hin Hkey), Hget. reflexivity.
  - intros Hnot. rewrite (run_with_key key axios_get c Hin Hkey).
    unfold delivered; cbn [outcome].
    destruct (axios_get _) as [data | status data | ].
    + exfalso. exact (Hnot data eq_refl).
    + unfold on_rejected. destruct (get data "message"); reflexivity.
    + reflexivity.
Qed.

Lemma upstream_failure_outcomes_witness :
  outcome
    (getCityWeather Sample.key
       (Sample.answering (Rejected 429 (VObj [("error", VStr "Too Many Requests")])))
       "kaohsiung")
  = Responded 429
      (UpstreamFailure "CWA API 錯誤" (VStr "無法取得天氣資料")
         (VObj [("error", VStr "Too Many Requests")])).
Proof.
  destruct (upstream_failure_outcomes Sample.key
              (Sample.answering (Rejected 429 (VObj [("error", VStr "Too Many Requests")])))
              "kaohsiung") as [Hrejected _].
  - simpl; tauto.
  - reflexivity.
  - rewrite (Hrejected 429 (VObj [("error", VStr "Too Many Requests")]) eq_refl eq_refl).
    reflexivity.
Defined.

(** X11.  The handler throws out of its own [catch] block, and so sends
    nothing itself, exactly when the code passed the validation, the key
    is set, and the upstream rejected with a status and the body [null]
    (or [undefined]). *)
Theorem escapes_iff (key : option string) (axios_get : Request -> Reply) (c : string) :
  outcome (getCityWeather key axios_get c) = Escaped
  <-> entry_truthy (CITIES_at c) = true
      /\ key_absent key = false
      /\ exists status data,
           axios_get (request_for key (CITIES_at c)) = Rejected status data
           /\ nullish data = true.
Proof.
  unfold getCityWeather.
  destruct (entry_truthy (CITIES_at c)); cbn [negb outcome];
    [ | split; [discriminate | intros [H _]; discriminate H]].
  destruct (key_absent key); cbn [outcome];
    [split; [discriminate | intros [_ [H _]]; discriminate H] | ].
  destruct (axios_get _) as [data | status data | ].
  - split.
    + destruct (on_resolved _ c data) as [o | | ] eqn:Ho; try discriminate.
      destruct (on_resolved_inv _ c data o Ho) as [-> | [periods [_ ->]]]; discriminate.
    + intros [_ [_ [status [data' [H _]]]]]. discriminate H.
  - unfold on_rejected, get. split.
    + destruct (nullish data) eqn:Hn; [ | discriminate].
      intros _. repeat split. exists status, data. split; [reflexivity | exact Hn].
    + intros [_ [_ [status' [data' [H Hn]]]]]. injection H as <- <-.
      rewrite Hn. reflexivity.
  - split; [discriminate | ].
    intros [_ [_ [status [data [H _]]]]]. discriminate H.
Qed.

(** X12.  The handler makes at most one outbound request.  It makes none
    when the code is rejected or the key is unset or empty; otherwise the
    one request goes to the fixed dataset URL, carries the configured key
    (never an empty one) as [Authorization], and asks for the [name] of the
    entry of the code. *)
Theorem one_request_at_most (key : option string) (axios_get : Request -> Reply)
    (c : string) :
  (calls (getCityWeather key axios_get c) = []
   /\ (CITIES_at c = Missing \/ key_absent key = true))
  \/ (exists r,
        calls (getCityWeather key axios_get c) = [r]
        /\ url r = "https://opendata.cwa.gov.tw/api/v1/rest/datastore/F-C0032-001"
        /\ key = Some (Authorization r)
        /\ Authorization r <> ""
        /\ locationName r = entry_name (CITIES_at c)
        /\ CITIES_at c <> Missing).
Proof.
  unfold getCityWeather.
  destruct (CITIES_at c) as [own | member | ] eqn:He; cbn [entry_truthy negb];
    try (left; split; [reflexivity | left; reflexivity]).
  - destruct key as [k | ]; cbn [key_absent].
    + destruct (k =? "")%string eqn:Hk.
      * left; split; [reflexivity | right; reflexivity].
      * right. eexists. split; [reflexivity | ]. cbn.
        apply String.eqb_neq in Hk. repeat split; try assumption. discriminate.
    + left; split; [reflexivity | right; reflexivity].
  - destruct key as [k | ]; cbn [key_absent].
    + destruct (k =? "")%string eqn:Hk.
      * left; split; [reflexivity | right; reflexivity].
      * right. eexists. split; [reflexivity | ]. cbn.
        apply String.eqb_neq in Hk. repeat split; try assumption. discriminate.
    + left; split; [reflexivity | right; reflexivity].
Qed.

(** *** The listing and the weather route *)

Lemma success_fields (key : option string) (axios_get : Request -> Reply) (c : string)
    (s : Z) (d : WeatherData) :
  outcome (getCityWeather key axios_get c) = Responded s (Success d) ->
  s = 200
  /\ city d = entry_displayName (CITIES_at c)
  /\ cityId d = c
  /\ exists data,
       axios_get (request_for key (CITIES_at c)) = Resolved data
       /\ updateTime d = prop (prop data "records") "datasetDescription".
Proof.
  intros Hout.
  destruct (success_inv key axios_get c s d Hout) as [data [Hget [_ [_ Hres]]]].
  destruct (on_resolved_inv _ c data _ Hres) as [Hno | [periods [_ Ho]]];
    [discriminate Hno | ].
  injection Ho as -> ->. repeat split. exists data. split; [exact Hget | reflexivity].
Qed.

(** X13.  Every city that [GET /api/cities] lists is served by the weather
    route under its listed [id]: with the key set, the upstream is asked
    for the listed [apiName], a 200 answer carries the listed [name] as
    [city] and the [id] as [cityId], and the 400 envelope offers the same
    [id] and [name] among its [validCities]. *)
Theorem listed_cities_served (l : Listed.t) (key : option string)
    (axios_get : Request -> Reply) :
  In l (CityList.cities cities_route) ->
  key_absent key = false ->
  calls (getCityWeather key axios_get (Listed.id l))
  = [ {| url := "https://opendata.cwa.gov.tw/api/v1/rest/datastore/F-C0032-001";
         Authorization := key_text key;
         locationName := VStr (Listed.apiName l) |} ]
  /\ (forall s d,
        outcome (getCityWeather key axios_get (Listed.id l)) = Responded s (Success d) ->
        city d = VStr (Listed.name l) /\ cityId d = Listed.id l)
  /\ exists error message valid,
       invalid_city = Responded 400 (InvalidCity error message valid)
       /\ In (ValidCity.make (Listed.id l) (Listed.name l)) valid.
Proof.
  intros Hin Hkey. cbn in Hin.
  repeat (destruct Hin as [<- | Hin];
          [ split; [ | split ];
            [ unfold getCityWeather; cbn [Listed.id];
              match goal with
              | |- context [CITIES_at ?c] =>
                  let e := eval vm_compute in (CITIES_at c) in
                  replace (CITIES_at c) with e by (vm_compute; reflexivity)
              end;
              cbn [entry_truthy negb]; rewrite Hkey; reflexivity
            | intros s d Hout;
              destruct (success_fields key axios_get _ s d Hout) as [_ [Hc [Hi _]]];
              split; [rewrite Hc; reflexivity | exact Hi]
            | do 3 eexists; split; [reflexivity | cbn; tauto] ]
          | ]).
  contradiction.
Qed.

Lemma listed_cities_served_witness :
  calls
    (getCityWeather Sample.key (Sample.answering Network_failure)
       (Listed.id (Listed.make "taichung" "台中市" "臺中市")))
  = [ {| url := "https://opendata.cwa.gov.tw/api/v1/rest/datastore/F-C0032-001";
         Authorization := "CWA-TEST-KEY";
         locationName := VStr "臺中市" |} ].
Proof.
  destruct (listed_cities_served (Listed.make "taichung" "台中市" "臺中市") Sample.key
              (Sample.answering Network_failure)) as [Hcalls _].
  - cbn; tauto.
  - reflexivity.
  - exact Hcalls.
Defined.

(** X14.  Status and envelope always agree.  The invalid-city envelope
    goes out with 400 and only before any request; a plain error envelope
    only with 404 or 500; the upstream-error envelope only with the status
    and body the upstream rejected with; and the forecast envelope only
    with 200, after the upstream resolved, with the requested code as
    [cityId] and the body's [records.datasetDescription] as [updateTime]. *)
Theorem status_matches_envelope (key : option string) (axios_get : Request -> Reply)
    (c : string) (s : Z) (b : Body) :
  outcome (getCityWeather key axios_get c) = Responded s b ->
  match b with
  | InvalidCity _ _ valid =>
      s = 400 /\ calls (getCityWeather key axios_get c) = [] /\ length valid = 6%nat
  | Failure _ _ => s = 404 \/ s = 500
  | UpstreamFailure _ _ details =>
      axios_get (request_for key (CITIES_at c)) = Rejected s details
  | Success d =>
      s = 200
      /\ cityId d = c
      /\ exists data,
           axios_get (request_for key (CITIES_at c)) = Resolved data
           /\ updateTime d = prop (prop data "records") "datasetDescription"
  end.
Proof.
  intros Hout.
  destruct b as [error message valid | error message | error message details | d].
  - assert (Hm : CITIES_at c = Missing).
    { destruct (CITIES_at c) eqn:He; [ | | reflexivity]; exfalso;
        revert Hout; unfold getCityWeather; rewrite He; cbn [entry_truthy negb];
        (destruct (key_absent key); cbn [outcome]; [discriminate | ]);
        (destruct (axios_get _) as [data | status data | ]; [ | | discriminate]).
      - destruct (on_resolved _ c data) as [o | | ] eqn:Ho; try discriminate.
        destruct (on_resolved_inv _ c data o Ho) as [-> | [periods [_ ->]]]; discriminate.
      - unfold on_rejected. destruct (get data "message"); discriminate.
      - destruct (on_resolved _ c data) as [o | | ] eqn:Ho; try discriminate.
        destruct (on_resolved_inv _ c data o Ho) as [-> | [periods [_ ->]]]; discriminate.
      - unfold on_rejected. destruct (get data "message"); discriminate. }
    rewrite (unanswered_code_rejected key axios_get c Hm) in Hout |- *.
    cbn [outcome calls] in *. injection Hout as <- _ _ <-.
    repeat split; reflexivity.
  - revert Hout. unfold getCityWeather.
    destruct (entry_truthy (CITIES_at c)); cbn [negb outcome]; [ | discriminate].
    destruct (key_absent key); cbn [outcome].
    { intros H; injection H as <- _ _. right; reflexivity. }
    destruct (axios_get _) as [data | status data | ].
    + destruct (on_resolved _ c data) as [o | | ] eqn:Ho; try discriminate.
      * destruct (on_resolved_inv _ c data o Ho) as [-> | [periods [_ ->]]];
          [ | discriminate].
        intros H; injection H as <- _ _. left; reflexivity.
      * intros H; injection H as <- _ _. right; reflexivity.
    + unfold on_rejected. destruct (get data "message"); discriminate.
    + intros H; injection H as <- _ _. right; reflexivity.
  - revert Hout. unfold getCityWeather.
    destruct (entry_truthy (CITIES_at c)); cbn [negb outcome]; [ | discriminate].
    destruct (key_absent key); cbn [outcome]; [discriminate | ].
    destruct (axios_get _) as [data | status data | ]; [ | | discriminate].
    + destruct (on_resolved _ c data) as [o | | ] eqn:Ho; try discriminate.
      destruct (on_resolved_inv _ c data o Ho) as [-> | [periods [_ ->]]]; discriminate.
    + unfold on_rejected. destruct (get data "message"); try discriminate.
      intros H; injection H as <- _ _ <-. reflexivity.
  - destruct (success_fields key axios_get c s d Hout) as [Hs [_ [Hi Hdata]]].
    split; [exact Hs | split; [exact Hi | exact Hdata]].
Qed.

Lemma status_matches_envelope_witness :
  cityId Sample.complete_answer = "taipei"
  /\ updateTime Sample.complete_answer = VStr "三十六小時天氣預報".
Proof.
  destruct (status_matches_envelope Sample.key
              (Sample.answering (Resolved Sample.complete)) "taipei" 200
              (Success Sample.complete_answer) eq_refl)
    as [_ [Hid [data [Hget Hupdate]]]].
  split; [exact Hid | ].
  injection Hget as <-. exact Hupdate.
Defined.

(** *** The handler against the element table *)








(** *** Reordering the elements after the first *)

Lemma period_reorder (element0 : Value) (others others' : list Value) (i : nat) :
  Permutation others others' ->
  NoDup (map (fun e => prop e "elementName") (element0 :: others)) ->
  period (VArr (element0 :: others)) i = period (VArr (element0 :: others')) i.
Proof.
  intros Hperm Hnd. unfold period, get, get_item, bind. cbn [nullish item nth].
  destruct (nullish element0); [reflexivity | ].
  destruct (nullish (prop element0 "time")); [reflexivity | ].
  destruct (nullish (item (prop element0 "time") i)); [reflexivity | ].
  apply (distinct_names_any_order i (element0 :: others) (element0 :: others')).
  - apply perm_skip. exact Hperm.
  - exact Hnd.
Qed.

Lemma loop_reorder (element0 : Value) (others others' : list Value) (n : nat) :
  Permutation others others' ->
  NoDup (map (fun e => prop e "elementName") (element0 :: others)) ->
  forall (i : nat) (acc : list Forecast),
    loop (VArr (element0 :: others)) n i acc = loop (VArr (element0 :: others')) n i acc.
Proof.
  intros Hperm Hnd. induction n as [ | n IH]; intros i acc; cbn [loop].
  - reflexivity.
  - rewrite (period_reorder element0 others others' i Hperm Hnd).
    destruct (period _ i); cbn [bind]; [apply IH | | ]; reflexivity.
Qed.

Lemma forecasts_of_reorder (element0 : Value) (others others' : list Value) :
  Permutation others others' ->
  NoDup (map (fun e => prop e "elementName") (element0 :: others)) ->
  forecasts_of (VArr (element0 :: others)) = forecasts_of (VArr (element0 :: others')).
Proof.
  intros Hperm Hnd. unfold forecasts_of, get, get_item, bind. cbn [nullish item nth].
  destruct (nullish element0); [reflexivity | ].
  destruct (nullish (prop element0 "time")); [reflexivity | ].
  destruct (iterations _); try reflexivity.
  apply loop_reorder; assumption.
Qed.

(** X6.  Element 0 fixes the time axis; the order of the elements after it
    does not matter.  When no two weather elements carry the same
    [elementName], two payloads whose [weatherElement] arrays start with
    the same element and list the same further elements in different
    orders get the same forecast list from the handler (or both get
    none). *)
Theorem order_after_first_irrelevant (key key' : option string)
    (axios_get axios_get' : Request -> Reply) (c c' : string)
    (data data' locationData locationData' : Value) (rest rest' : list Value)
    (element0 : Value) (others others' : list Value) :
  In c CITIES_keys -> In c' CITIES_keys ->
  key_absent key = false -> key_absent key' = false ->
  axios_get (request_for key (CITIES_at c)) = Resolved data ->
  axios_get' (request_for key' (CITIES_at c')) = Resolved data' ->
  prop (prop data "records") "location" = VArr (locationData :: rest) ->
  prop locationData "weatherElement" = VArr (element0 :: others) ->
  prop (prop data' "records") "location" = VArr (locationData' :: rest') ->
  prop locationData' "weatherElement" = VArr (element0 :: others') ->
  Permutation others others' ->
  NoDup (map (fun e => prop e "elementName") (element0 :: others)) ->
  delivered (getCityWeather key axios_get c)
  = delivered (getCityWeather key' axios_get' c').
Proof.
  intros Hin Hin' Hkey Hkey' Hget Hget' Hloc Hwe Hloc' Hwe' Hperm Hnd.
  rewrite (delivered_periods key axios_get c data Hin Hkey Hget).
  rewrite (delivered_periods key' axios_get' c' data' Hin' Hkey' Hget').
  rewrite (on_resolved_shaped _ c data locationData rest element0 others Hloc Hwe).
  rewrite (on_resolved_shaped _ c' data' locationData' rest' element0 others' Hloc' Hwe').
  rewrite (forecasts_of_reorder element0 others others' Hperm Hnd).
  destruct (forecasts_of _); reflexivity.
Qed.

Lemma order_after_first_irrelevant_witness :
  delivered (getCityWeather Sample.key (Sample.answering (Resolved Sample.complete)) "taipei")
  = delivered
      (getCityWeather Sample.key (Sample.answering (Resolved Sample.complete_reordered))
         "taipei")
  /\ delivered
       (getCityWeather Sample.key (Sample.answering (Resolved Sample.complete)) "taipei")
     = Some (forecasts Sample.complete_answer).
Proof.
  split; [ | reflexivity].
  pose (t1 := [Sample.slot "06:00" "18:00" (Sample.named "多雲");
               Sample.slot "18:00" "06:00" (Sample.named "晴")]).
  pose (pop := Sample.element "PoP"
                 [Sample.slot "06:00" "18:00" (Sample.named "20");
                  Sample.slot "18:00" "06:00" (Sample.named "")]).
  pose (mint := Sample.element "MinT"
                  [Sample.slot "06:00" "18:00" (Sample.named "18");
                   Sample.slot "18:00" "06:00" (Sample.named "16")]).
  pose (ci := Sample.element "CI"
                [Sample.slot "06:00" "18:00" (Sample.named "舒適");
                 Sample.slot "18:00" "06:00" (Sample.named "稍有寒意")]).
  pose (maxt := Sample.element "MaxT"
                  [Sample.slot "06:00" "18:00" (Sample.named "24");
                   Sample.slot "18:00" "06:00" (Sample.named "21")]).
  apply (order_after_first_irrelevant Sample.key Sample.key
           (Sample.answering (Resolved Sample.complete))
           (Sample.answering (Resolved Sample.complete_reordered))
           "taipei" "taipei" Sample.complete Sample.complete_reordered
           (item (prop (prop Sample.complete "records") "location") 0)
           (item (prop (prop Sample.complete_reordered "records") "location") 0)
           [] [] (Sample.element "Wx" t1)
           [pop; mint; ci; maxt] [maxt; ci; pop; mint]).
  - simpl; tauto.
  - simpl; tauto.
  - reflexivity.
  - reflexivity.
  - reflexivity.
  - reflexivity.
  - reflexivity.
  - reflexivity.
  - reflexivity.
  - reflexivity.
  - apply (Permutation_cons_app [maxt; ci] [mint]).
    apply (Permutation_cons_app [maxt; ci] []).
    apply perm_swap.
  - cbn [map]. repeat constructor; cbn [In];
      intros H; repeat (destruct H as [H | H]; [discriminate H | ]); exact H.
Defined.
